(** * Announcement monitor (monitor.py): model and verified properties

    A shallow embedding of [monitor.py]: the three source adapters
    ([WeixinPaySource], [TencentCloudSource], [YeepaySource]) and the
    [AnnouncementMonitor] with its poll cycle [check_updates].

    Conventions of the model.
    - A Python [str] is a [string] of bytes, its UTF-8 encoding.  The
      separators ["_"], ["-"] and ["/"] are single bytes that never occur
      inside a multi-byte sequence, and a white-space character is
      recognized by its whole byte sequence, whose first byte only ever
      starts a character; so reasoning on bytes agrees with reasoning on
      code points for everything done here.
    - A Python exception of class [Exception] is a value of [exn]; a
      computation that may raise returns a [result].  [BaseException]s
      that are not [Exception]s (KeyboardInterrupt, SystemExit) are
      outside the model.
    - The network is an oracle, [World]: one value per poll cycle.
    - [self.last_items] is a [gset string]. *)

From Stdlib Require Import ZArith Ascii String.
From stdpp Require Import gmap strings list.

Set Warnings "-register-all,-clear-no-such-hyp".
Open Scope string_scope.
Open Scope Z_scope.

(** ** Exceptions and results *)

Inductive exn : Type :=
| ConnectionError
| JSONDecodeError
| ParserError
| KeyError (k : string)
| IndexError
| TypeError
| AttributeError
| ValueError.

Inductive result (A : Type) : Type :=
| Ok (a : A)
| Raise (e : exn).
Arguments Ok {A} a.
Arguments Raise {A} e.

Definition is_ok {A} (r : result A) : bool :=
  match r with Ok _ => true | Raise _ => false end.

Definition rbind {A B} (r : result A) (f : A -> result B) : result B :=
  match r with Ok a => f a | Raise e => Raise e end.

(** ** Python string operations used by the adapters *)

Module Py.

Definition chars (s : string) : list ascii := list_ascii_of_string s.
Definition str (l : list ascii) : string := string_of_list_ascii l.

(** The white space of [str.split()] and [str.strip()] is the set of
    code points for which [str.isspace] holds: U+0009..U+000D,
    U+001C..U+001F, U+0020, U+0085, U+00A0, U+1680, U+2000..U+200A, U+2028,
    U+2029, U+202F, U+205F and U+3000.  In UTF-8 they take one, two or
    three bytes. *)

(** The one-byte white space: TAB..CR, FS..US and SPACE. *)
Definition is_space (c : ascii) : bool :=
  let n := N_of_ascii c in
  ((9 <=? n)%N && (n <=? 13)%N) || ((28 <=? n)%N && (n <=? 32)%N).

(** The two-byte white space: U+0085 (C2 85) and U+00A0 (C2 A0). *)
Definition is_space2 (a b : ascii) : bool :=
  let m := N_of_ascii a in
  let n := N_of_ascii b in
  (m =? 194)%N && ((n =? 133)%N || (n =? 160)%N).

(** The three-byte white space: U+1680 (E1 9A 80), U+2000..U+200A
    (E2 80 80..8A), U+2028, U+2029, U+202F (E2 80 A8, A9, AF), U+205F
    (E2 81 9F) and U+3000 (E3 80 80). *)
Definition is_space3 (a b c : ascii) : bool :=
  let m := N_of_ascii a in
  let n := N_of_ascii b in
  let p := N_of_ascii c in
  ((m =? 225)%N && (n =? 154)%N && (p =? 128)%N)
  || ((m =? 226)%N && (n =? 128)%N
      && (((128 <=? p)%N && (p <=? 138)%N)
          || (p =? 168)%N || (p =? 169)%N || (p =? 175)%N))
  || ((m =? 226)%N && (n =? 129)%N && (p =? 159)%N)
  || ((m =? 227)%N && (n =? 128)%N && (p =? 128)%N).

(** The number of bytes of the white-space character [l] starts with;
    0 when it starts with none. *)
Definition space_len (l : list ascii) : nat :=
  match l with
  | a :: b :: c :: _ =>
      if is_space a then 1
      else if is_space2 a b then 2
      else if is_space3 a b c then 3 else 0
  | [a; b] => if is_space a then 1 else if is_space2 a b then 2 else 0
  | [a] => if is_space a then 1 else 0
  | [] => 0
  end%nat.

(** The same for a list of bytes in reverse order: the number of bytes of
    the white-space character the string ends with. *)
Definition space_len_rev (l : list ascii) : nat :=
  match l with
  | c :: b :: a :: _ =>
      if is_space c then 1
      else if is_space2 b c then 2
      else if is_space3 a b c then 3 else 0
  | [c; b] => if is_space c then 1 else if is_space2 b c then 2 else 0
  | [c] => if is_space c then 1 else 0
  | [] => 0
  end%nat.

(** Drops the leading white space found by [len].  [skip] counts the
    bytes still to pass of the white-space character being dropped. *)
Fixpoint lstrip_go (len : list ascii -> nat) (skip : nat) (l : list ascii)
  : list ascii :=
  match l with
  | [] => []
  | _ :: l' =>
      match skip with
      | S k => lstrip_go len k l'
      | O => match len l with
             | S k => lstrip_go len k l'
             | O => l
             end
      end
  end.

Definition lstrip_chars (l : list ascii) : list ascii :=
  lstrip_go space_len 0 l.

Definition rstrip_chars (l : list ascii) : list ascii :=
  rev (lstrip_go space_len_rev 0 (rev l)).

(** [s.strip()] *)
Definition strip (s : string) : string :=
  str (rstrip_chars (lstrip_chars (chars s))).

(** [s.split()]: the maximal runs without white space.  [cur] is the run
    being read, reversed; [skip] counts the bytes still to pass of the
    white-space character being read. *)
Fixpoint split_go (skip : nat) (cur : list ascii) (l : list ascii)
  : list string :=
  match l with
  | [] => match cur with [] => [] | _ => [str (rev cur)] end
  | c :: l' =>
      match skip with
      | S k => split_go k cur l'
      | O => match space_len l with
             | S k => match cur with
                      | [] => split_go k [] l'
                      | _ => str (rev cur) :: split_go k [] l'
                      end
             | O => split_go 0 (c :: cur) l'
             end
      end
  end.

Definition split (s : string) : list string := split_go 0 [] (chars s).

(** The number of bytes of the character that starts with the byte [c]. *)
Definition char_len (c : ascii) : nat :=
  let n := N_of_ascii c in
  if (n <? 192)%N then 1%nat
  else if (n <? 224)%N then 2%nat
  else if (n <? 240)%N then 3%nat else 4%nat.

(** The characters of a string, one string each, as [for c in s] meets
    them.  [more] counts the bytes the character being read still lacks,
    [cur] holds its bytes so far, reversed. *)
Fixpoint code_points_go (more : nat) (cur : list ascii) (l : list ascii)
  : list string :=
  match l with
  | [] => match cur with [] => [] | _ => [str (rev cur)] end
  | c :: l' =>
      match more with
      | S O => str (rev (c :: cur)) :: code_points_go 0 [] l'
      | S k => code_points_go k (c :: cur) l'
      | O => match char_len c with
             | S (S k) => code_points_go (S k) [c] l'
             | _ => str [c] :: code_points_go 0 [] l'
             end
      end
  end.

Definition code_points (s : string) : list string :=
  code_points_go 0 [] (chars s).

(** [s.split(sep)] for a one-character [sep], on lists of characters:
    the fields between the separators; never empty. *)
Fixpoint split_on (sep : ascii) (l : list ascii) : list (list ascii) :=
  match l with
  | [] => [[]]
  | c :: l' =>
      if decide (c = sep) then [] :: split_on sep l'
      else match split_on sep l' with
           | f :: fs => (c :: f) :: fs
           | [] => [[c]]
           end
  end.

(** [s.split(sep)[-1]] *)
Definition last_field (sep : ascii) (s : string) : string :=
  str (List.last (split_on sep (chars s)) []).

(** [l[i]] on a list *)
Definition index {A} (l : list A) (i : nat) : result A :=
  match l !! i with Some a => Ok a | None => Raise IndexError end.

End Py.

(** ** Calendar dates and [datetime.strptime(s, "%Y-%m-%d")] *)

Record date : Type := Date { year : Z; month : Z; day : Z }.

(** [d1 >= d2] on [datetime.date] is [date_leb d2 d1]. *)
Definition date_leb (d1 d2 : date) : bool :=
  (year d1 <? year d2)
  || ((year d1 =? year d2)
      && ((month d1 <? month d2)
          || ((month d1 =? month d2) && (day d1 <=? day d2)))).

Definition digit (c : ascii) : option Z :=
  let n := N_of_ascii c in
  if ((48 <=? n)%N && (n <=? 57)%N)%bool then Some (Z.of_N n - 48) else None.

Definition is_leap (y : Z) : bool :=
  ((y mod 4 =? 0) && negb (y mod 100 =? 0)) || (y mod 400 =? 0).

Definition days_in_month (y m : Z) : Z :=
  if m =? 2 then (if is_leap y then 29 else 28)
  else if (m =? 4) || (m =? 6) || (m =? 9) || (m =? 11) then 30
  else 31.

(** The directive [%m]: the pattern [1[0-2]|0[1-9]|[1-9]]. *)
Definition parse_month (l : list ascii) : option Z :=
  match l with
  | [a] => match digit a with
           | Some v => if 1 <=? v then Some v else None
           | None => None
           end
  | [a; b] =>
      match digit a, digit b with
      | Some 1, Some v => if v <=? 2 then Some (10 + v) else None
      | Some 0, Some v => if 1 <=? v then Some v else None
      | _, _ => None
      end
  | _ => None
  end.

(** The directive [%d]: the pattern [3[0-1]|[1-2]\d|0[1-9]|[1-9]| [1-9]]. *)
Definition parse_day (l : list ascii) : option Z :=
  match l with
  | [a] => match digit a with
           | Some v => if 1 <=? v then Some v else None
           | None => None
           end
  | [a; b] =>
      match digit b with
      | Some v =>
          if decide (a = " "%char) then (if 1 <=? v then Some v else None)
          else match digit a with
               | Some 3 => if v <=? 1 then Some (30 + v) else None
               | Some 2 => Some (20 + v)
               | Some 1 => Some (10 + v)
               | Some 0 => if 1 <=? v then Some v else None
               | _ => None
               end
      | None => None
      end
  | _ => None
  end.

(** The directive [%Y]: four digits. *)
Definition parse_year (l : list ascii) : option Z :=
  match l with
  | [a; b; c; d] =>
      match digit a, digit b, digit c, digit d with
      | Some x, Some y, Some z, Some t =>
          Some (1000 * x + 100 * y + 10 * z + t)
      | _, _, _, _ => None
      end
  | _ => None
  end.

(** [datetime.strptime(s, "%Y-%m-%d")], as a date.  The format is matched
    as the pattern [Y-m-d] against the whole of [s]; none of the three
    directives matches a ["-"], so [s] matches exactly when its three
    ["-"]-separated fields match [%Y], [%m] and [%d].  The date has to
    exist (years from 1, days within the month).  Anything else is a
    [ValueError].  The digits are the ASCII digits: a digit of another
    script, which Python's [\d] accepts too, is refused here. *)
Definition strptime (s : string) : result date :=
  match Py.split_on "-" (Py.chars s) with
  | [ys; ms; ds] =>
      match parse_year ys, parse_month ms, parse_day ds with
      | Some y, Some m, Some d =>
          if (1 <=? y) && (d <=? days_in_month y m)
          then Ok (Date y m d) else Raise ValueError
      | _, _, _ => Raise ValueError
      end
  | _ => Raise ValueError
  end.

(** ** Normalized announcements and their identity key *)

(** The dict returned by every [format_notification]: the five keys are
    always present.  The key ['date'] is the field [date_], since [date]
    names the type of calendar dates. *)
Record Announcement : Type := {
  title : string;
  date_ : string;
  time : string;
  url : string;
  source : string
}.

(** [f"{item['source']}_{item['title']}_{item['date']}"] *)
Definition item_key (item : Announcement) : string :=
  source item +:+ "_" +:+ title item +:+ "_" +:+ date_ item.

(** ** JSON values, HTTP responses and the network *)

(** What [response.json()] returns.  A JSON object is the association
    list of its dict (keys in insertion order, each key once).  JSON
    numbers are integers here. *)
Inductive json : Type :=
| JNull
| JBool (b : bool)
| JNum (n : Z)
| JStr (s : string)
| JList (l : list json)
| JObj (kv : list (string * json)).

Fixpoint assoc {V} (k : string) (kv : list (string * V)) : option V :=
  match kv with
  | [] => None
  | (k', v) :: kv' => if decide (k' = k) then Some v else assoc k kv'
  end.

(** [v.get(k)]: only a dict has [get]; a missing key gives [None]. *)
Definition json_get (v : json) (k : string) : result json :=
  match v with
  | JObj kv => Ok (default JNull (assoc k kv))
  | _ => Raise AttributeError
  end.

(** [v[k]] for a string [k] *)
Definition json_item (v : json) (k : string) : result json :=
  match v with
  | JObj kv => match assoc k kv with
               | Some x => Ok x
               | None => Raise (KeyError k)
               end
  | _ => Raise TypeError
  end.

(** [v == 0]: [False == 0] holds in Python. *)
Definition json_is_zero (v : json) : bool :=
  match v with
  | JNum n => n =? 0
  | JBool b => negb b
  | _ => false
  end.

(** The elements [items.extend(v)] appends: the elements of a list, the
    keys of a dict, the characters of a string. *)
Definition json_iter (v : json) : result (list json) :=
  match v with
  | JList l => Ok l
  | JObj kv => Ok (map (fun p => JStr (fst p)) kv)
  | JStr s => Ok (map JStr (Py.code_points s))
  | _ => Raise TypeError
  end.

(** A tag found by [select_one]: its [text] and its attributes. *)
Record Element : Type := {
  el_text : string;
  el_attrs : list (string * string)
}.

(** A tag found by [soup.select]: what [select_one] finds below it. *)
Record Node : Type := {
  select_one : string -> result (option Element)
}.

(** A [requests.Response].  The body is seen through the two parsers the
    adapters apply to it: [json] is [response.json()] and [select sel] is
    [BeautifulSoup(response.text, 'html.parser').select(sel)]. *)
Record Response : Type := {
  status_code : Z;
  text : string;
  json_body : result json;
  select : string -> result (list Node)
}.

(** The outside world during one poll cycle.  [requests_post n content]
    answers the POST made after [n] earlier POSTs of the process;
    [now] is [datetime.now().strftime("%Y-%m-%d %H:%M:%S")]. *)
Record World : Type := {
  requests_get : string -> gmap string string -> result Response;
  requests_post : nat -> string -> result Response;
  now : string
}.

(** ** Standard output *)

Inductive log_line : Type :=
| LogParseItem (e : exn)        (* 解析公告项时出错 *)
| LogFetchTencent (e : exn)     (* 获取腾讯云公告失败 *)
| LogParseYeepayItem (e : exn)  (* 解析易宝公告项时出错 *)
| LogFetchYeepay (e : exn)      (* 获取易宝支付公告失败 *)
| LogSendFailed (body : string) (* 发送通知失败 *)
| LogChecking (name : string) (n : nat) (* 正在检查 .. 公告，获取到 n 条 *)
| LogDebugNew (key : string)    (* DEBUG-检测到新公告 *)
| LogNew (key : string)         (* 检测到新公告 *)
| LogFirstRun (n : nat)         (* 首次运行，已收集 n 条现有公告 *)
| LogCheckError (e : exn)       (* 检查更新时发生错误 *)
| LogStarted (t : string).      (* 监控服务已启动 *)

(** ** The adapter interface *)

(** [AnnouncementSource]: the abstract base class.  [get_announcements]
    returns what it printed and its outcome. *)
Record AnnouncementSource : Type := {
  class_name : string;
  raw_item : Type;
  get_announcements : World -> list log_line * result (list raw_item);
  format_notification : raw_item -> result Announcement
}.

(** ** WeixinPaySource *)

Module WeixinPay.

Definition base_url : string :=
  "https://pay.weixin.qq.com/index.php/public/cms/get_contents".

Definition params0 : gmap string string :=
  <["g_ty" := "ajax"]>
  (<["field" := "contentId,contentTitle,contentPublishTime"]>
  (<["expiretimebeg" := "1738575930"]>
  (<["publishtimeend" := "1738575930"]>
  (<["states" := "2"]>
  (<["url" := "https://pay.weixin.qq.com/public/cms/content_list?lang=zh&id=6200"]>
  (<["cmstype" := "1"]>
  (<["id" := "6200"]> ∅))))))).

Definition params1 : gmap string string :=
  <["ordertype" := "4"]>
    (<["propertyexclude" := "1"]> (<["pagenum" := "1"]> params0)).

Definition params2 : gmap string string :=
  <["propertyinclude" := "1"]>
    (delete "propertyexclude" (delete "pagenum" params1)).

(** The body of [if response.status_code == 200: ...], returning the
    extended [items]. *)
Definition extend_from (items : list json) (response : Response)
  : result (list json) :=
  if status_code response =? 200 then
    rbind (json_body response) (fun data =>
    rbind (json_get data "errorcode") (fun code =>
    if json_is_zero code then
      rbind (json_item data "data") (fun d =>
      rbind (json_item d "contentlist") (fun cl =>
      rbind (json_iter cl) (fun l => Ok (items ++ l)%list)))
    else Ok items))
  else Ok items.

Definition get_announcements (w : World)
  : list log_line * result (list json) :=
  ([],
   rbind (requests_get w base_url params1) (fun response1 =>
   rbind (requests_get w base_url params2) (fun response2 =>
   rbind (extend_from [] response1) (fun items =>
   extend_from items response2)))).

Section Format.
(** Library functions the model takes as given:
    [fromtimestamp n] is [datetime.fromtimestamp(n)] in the local time
    zone, as the pair of its [strftime('%Y-%m-%d')] and
    [strftime('%H:%M:%S')]; [render v] is [str(v)] for a [v] that is
    not a string. *)
Variable fromtimestamp : Z -> result (string * string).
Variable render : json -> string.

Definition fmt (v : json) : string :=
  match v with JStr s => s | _ => render v end.

Definition timestamp (v : json) : result (string * string) :=
  match v with
  | JNum n => fromtimestamp n
  | JBool b => fromtimestamp (if b then 1 else 0)
  | _ => Raise TypeError
  end.

Definition format_notification (item : json) : result Announcement :=
  rbind (json_item item "contentPublishTime") (fun t =>
  rbind (timestamp t) (fun publish_time =>
  rbind (json_item item "contentTitle") (fun ti =>
  rbind (json_item item "contentId") (fun id =>
  Ok {| title := fmt ti;
        date_ := fst publish_time;
        time := snd publish_time;
        url := "https://pay.weixin.qq.com/index.php/public/cms/content_detail?id="
               +:+ fmt id;
        source := "微信支付" |})))).

Definition Source : AnnouncementSource :=
  Build_AnnouncementSource "WeixinPaySource" json
    get_announcements format_notification.
End Format.

End WeixinPay.

(** ** TencentCloudSource *)

Module TencentCloud.

Definition url_ : string := "https://cloud.tencent.com/announce".

Record item : Type := {
  title_ : string;
  announceId : string;
  beginTime : string
}.

(** [link['href']] *)
Definition attr (e : Element) (k : string) : result string :=
  match assoc k (el_attrs e) with
  | Some v => Ok v
  | None => Raise (KeyError k)
  end.

(** The body of the inner [try]: the item to append, if any. *)
Definition parse_item (n : Node) : result (option item) :=
  rbind (select_one n ".msg-list-con a") (fun link =>
  rbind (select_one n ".msg-list-aside span") (fun time_span =>
  match link, time_span with
  | Some link, Some time_span =>
      rbind (attr link "href") (fun href =>
      Ok (Some {| title_ := Py.strip (el_text link);
                  announceId := Py.last_field "/" href;
                  beginTime := Py.strip (el_text time_span) |}))
  | _, _ => Ok None
  end)).

(** The [for] loop over the selected tags, with its [try/except/continue]. *)
Fixpoint parse_items (ns : list Node) : list log_line * list item :=
  match ns with
  | [] => ([], [])
  | n :: ns' =>
      let (out, announcements) := parse_items ns' in
      match parse_item n with
      | Ok (Some it) => (out, it :: announcements)
      | Ok None => (out, announcements)
      | Raise e => (LogParseItem e :: out, announcements)
      end
  end.

Definition get_announcements (w : World)
  : list log_line * result (list item) :=
  match requests_get w url_ ∅ with
  | Raise e => ([LogFetchTencent e], Ok [])
  | Ok response =>
      if negb (status_code response =? 200) then ([], Ok [])
      else match select response ".msg-list-bd .msg-list-item" with
           | Raise e => ([LogFetchTencent e], Ok [])
           | Ok ns => let (out, announcements) := parse_items ns in
                      (out, Ok announcements)
           end
  end.

Definition format_notification (it : item) : result Announcement :=
  let date_time := Py.split (beginTime it) in
  rbind (Py.index date_time 0) (fun d =>
  rbind (if decide (1 < length date_time)%nat
         then Py.index date_time 1 else Ok EmptyString) (fun t =>
  Ok {| title := title_ it;
        date_ := d;
        time := t;
        url := "https://cloud.tencent.com/announce/detail/" +:+ announceId it;
        source := "腾讯云" |})).

Definition Source : AnnouncementSource :=
  Build_AnnouncementSource "TencentCloudSource" item
    get_announcements format_notification.

End TencentCloud.

(** ** YeepaySource *)

Module Yeepay.

Definition url_ : string := "https://www.yeepay.com/all-notices".

Record item : Type := {
  title_ : string;
  noticeId : string;
  pubTime : string
}.

Definition parse_item (tr : Node) : result (option item) :=
  rbind (select_one tr "a") (fun link =>
  rbind (select_one tr ".ant-table-row-cell-break-word") (fun time_td =>
  match link, time_td with
  | Some link, Some time_td =>
      rbind (TencentCloud.attr link "href") (fun href =>
      Ok (Some {| title_ := Py.strip (el_text link);
                  noticeId := Py.last_field "/" href;
                  pubTime := Py.strip (el_text time_td) |}))
  | _, _ => Ok None
  end)).

Fixpoint parse_items (trs : list Node) : list log_line * list item :=
  match trs with
  | [] => ([], [])
  | tr :: trs' =>
      let (out, announcements) := parse_items trs' in
      match parse_item tr with
      | Ok (Some it) => (out, it :: announcements)
      | Ok None => (out, announcements)
      | Raise e => (LogParseYeepayItem e :: out, announcements)
      end
  end.

Definition get_announcements (w : World)
  : list log_line * result (list item) :=
  match requests_get w url_ ∅ with
  | Raise e => ([LogFetchYeepay e], Ok [])
  | Ok response =>
      if negb (status_code response =? 200) then ([], Ok [])
      else match select response ".ant-table-tbody tr" with
           | Raise e => ([LogFetchYeepay e], Ok [])
           | Ok trs => let (out, announcements) := parse_items trs in
                       (out, Ok announcements)
           end
  end.

Definition format_notification (it : item) : result Announcement :=
  let date_time := Py.split (pubTime it) in
  rbind (Py.index date_time 0) (fun d =>
  rbind (if decide (1 < length date_time)%nat
         then Py.index date_time 1 else Ok EmptyString) (fun t =>
  Ok {| title := title_ it;
        date_ := d;
        time := t;
        url := "https://www.yeepay.com/notice-detail/" +:+ noticeId it;
        source := "易宝支付" |})).

Definition Source : AnnouncementSource :=
  Build_AnnouncementSource "YeepaySource" item
    get_announcements format_notification.

End Yeepay.

(** ** AnnouncementMonitor *)

(** The object's four attributes, and two ghost fields that record its
    effects: what it printed and the POSTs it made to the webhook (the
    announcement notified and the markdown content sent), oldest first. *)
Record Monitor : Type := {
  sources : list AnnouncementSource;
  last_items : gset string;
  debug_time : option date;
  is_first_run : bool;
  stdout : list log_line;
  posted : list (Announcement * string)
}.

(** [AnnouncementMonitor()] *)
Definition new_monitor : Monitor :=
  {| sources := []; last_items := ∅; debug_time := None;
     is_first_run := true; stdout := []; posted := [] |}.

Definition set_sources (f : list AnnouncementSource -> list AnnouncementSource)
    (st : Monitor) : Monitor :=
  {| sources := f (sources st); last_items := last_items st;
     debug_time := debug_time st; is_first_run := is_first_run st;
     stdout := stdout st; posted := posted st |}.

Definition set_last_items (f : gset string -> gset string) (st : Monitor)
  : Monitor :=
  {| sources := sources st; last_items := f (last_items st);
     debug_time := debug_time st; is_first_run := is_first_run st;
     stdout := stdout st; posted := posted st |}.


Definition set_is_first_run (b : bool) (st : Monitor) : Monitor :=
  {| sources := sources st; last_items := last_items st;
     debug_time := debug_time st; is_first_run := b;
     stdout := stdout st; posted := posted st |}.

Definition emit (out : list log_line) (st : Monitor) : Monitor :=
  {| sources := sources st; last_items := last_items st;
     debug_time := debug_time st; is_first_run := is_first_run st;
     stdout := (stdout st ++ out)%list; posted := posted st |}.

Definition record_post (p : Announcement * string) (st : Monitor) : Monitor :=
  {| sources := sources st; last_items := last_items st;
     debug_time := debug_time st; is_first_run := is_first_run st;
     stdout := stdout st; posted := (posted st ++ [p])%list |}.

(** *** The monad of the monitor's methods: state and exceptions.
    A method that raises leaves the object as mutated so far. *)

Definition M (A : Type) : Type := Monitor -> result A * Monitor.

Definition ret {A} (a : A) : M A := fun st => (Ok a, st).

Definition bind {A B} (m : M A) (f : A -> M B) : M B :=
  fun st => match m st with
            | (Ok a, st') => f a st'
            | (Raise e, st') => (Raise e, st')
            end.

Notation "x <- m ;; k" := (bind m (fun x => k))
  (at level 100, m at next level, right associativity).
Notation "m ;;; k" := (bind m (fun _ => k))
  (at level 100, right associativity).

Definition lift {A} (r : result A) : M A := fun st => (r, st).
Definition gets {A} (f : Monitor -> A) : M A := fun st => (Ok (f st), st).
Definition modify (f : Monitor -> Monitor) : M unit :=
  fun st => (Ok tt, f st).
Definition print (l : log_line) : M unit := modify (emit [l]).

(** A call of an adapter's [get_announcements]. *)
Definition call {A} (o : list log_line * result A) : M A :=
  fun st => (snd o, emit (fst o) st).

(** [try: m  except Exception as e: h e] *)
Definition try_except {A} (m : M A) (h : exn -> M A) : M A :=
  fun st => match m st with
            | (Raise e, st') => h e st'
            | r => r
            end.

(** [for a in l: f a] *)
Fixpoint for_each {A} (l : list A) (f : A -> M unit) : M unit :=
  match l with
  | [] => ret tt
  | a :: l' => f a ;;; for_each l' f
  end.

(** *** Methods *)

Definition add_source (s : AnnouncementSource) : M unit :=
  modify (set_sources (fun l => l ++ [s])%list).


Definition nl : string := String (ascii_of_nat 10) EmptyString.

(** The markdown content of the message; [item] always has its [time]. *)
Definition message_content (current_time : string) (item : Announcement)
  : string :=
  "### 📢 「" +:+ source item +:+ "」新公告" +:+ nl +:+ nl +:+
  "**标题**：" +:+ title item +:+ nl +:+ nl +:+
  "**时间**：" +:+ date_ item +:+ " " +:+ time item +:+ nl +:+ nl +:+
  "**链接**：[点击查看详情](" +:+ url item +:+ ")" +:+ nl +:+ nl +:+
  "**巡检**：" +:+ current_time.

Definition send_notification (w : World) (item : Announcement) : M unit :=
  let content := message_content (now w) item in
  n <- gets (fun st => length (posted st)) ;;
  modify (record_post (item, content)) ;;;
  response <- lift (requests_post w n content) ;;
  if negb (status_code response =? 200)
  then print (LogSendFailed (text response))
  else ret tt.

Definition add_key (item_key : string) : M unit :=
  modify (set_last_items (fun s => {[item_key]} ∪ s)).

(** The body of [for raw_item in items]. *)
Definition process_item (w : World) (s : AnnouncementSource)
    (raw : raw_item s) : M unit :=
  item <- lift (format_notification s raw) ;;
  item_date <- lift (strptime (date_ item)) ;;
  let item_key := item_key item in
  st <- gets (fun st => st) ;;
  let seen := bool_decide (item_key ∈ last_items st) in
  if match debug_time st with
     | Some cutoff => date_leb cutoff item_date
     | None => false
     end
  then
    print (LogDebugNew item_key) ;;;
    if negb (is_first_run st) && negb seen
    then send_notification w item ;;; add_key item_key
    else if is_first_run st then add_key item_key
    else ret tt
  else if negb (bool_decide (is_Some (debug_time st))) && negb seen
  then
    print (LogNew item_key) ;;;
    (if negb (is_first_run st) then send_notification w item else ret tt) ;;;
    add_key item_key
  else ret tt.

(** The body of [for source in self.sources].  The printed line shows the
    class name without its [Source]. *)
Definition check_source (w : World) (s : AnnouncementSource) : M unit :=
  items <- call (get_announcements s w) ;;
  print (LogChecking (class_name s) (length items)) ;;;
  for_each items (process_item w s).

(** The body of the [try] of [check_updates]. *)
Definition check_updates_body (w : World) : M unit :=
  srcs <- gets sources ;;
  for_each srcs (check_source w) ;;;
  first <- gets is_first_run ;;
  if first
  then n <- gets (fun st => size (last_items st)) ;;
       print (LogFirstRun n) ;;;
       modify (set_is_first_run false)
  else ret tt.

Definition check_updates (w : World) : M unit :=
  try_except (check_updates_body w) (fun e => print (LogCheckError e)).

(** [while True: self.check_updates(); time.sleep(POLL_INTERVAL)], for the
    cycles whose worlds are given. *)
Fixpoint poll (ws : list World) : M unit :=
  match ws with
  | [] => ret tt
  | w :: ws' => check_updates w ;;; poll ws'
  end.

Definition run (startup_time : string) (ws : list World) : M unit :=
  print (LogStarted startup_time) ;;; poll ws.

(** * Vocabulary of the properties *)

(** ** Identity keys *)

(** The separator of [item_key]. *)
Definition sep : ascii := "_"%char.

Definition no_sep (s : string) : Prop := sep ∉ Py.chars s.

Definition same_triple (A B : Announcement) : Prop :=
  source A = source B ∧ title A = title B ∧ date_ A = date_ B.

(** The inverse of [Py.split_on]: the fields with [c] between them. *)
Fixpoint join_fields (c : ascii) (fs : list (list ascii)) : list ascii :=
  match fs with
  | [] => []
  | [f] => f
  | f :: fs' => (f ++ c :: join_fields c fs')%list
  end.

(** The characters of a string that [strptime] accepts, ["-"] apart. *)
Definition date_char (c : ascii) : Prop := c = " "%char ∨ is_Some (digit c).

(** ** One item *)

(** The first two statements of the loop body: the normalized
    announcement and its parsed date. *)
Definition normalize (s : AnnouncementSource) (raw : raw_item s)
  : result (Announcement * date) :=
  rbind (format_notification s raw) (fun item =>
  rbind (strptime (date_ item)) (fun item_date => Ok (item, item_date))).

(** What the [if/elif] of the loop body does with a normalized item:
    nothing, add its key silently, or notify and add its key. *)
Inductive action : Type := Skip | Baseline | Notify.

Definition decide_action (st : Monitor) (a : Announcement) (d : date)
  : action :=
  let seen := bool_decide (item_key a ∈ last_items st) in
  match debug_time st with
  | Some cutoff =>
      if date_leb cutoff d
      then if is_first_run st then Baseline
           else if seen then Skip else Notify
      else Skip
  | None =>
      if seen then Skip
      else if is_first_run st then Baseline else Notify
  end.

(** The POST that notifies [a] in world [w]. *)
Definition post_of (w : World) (a : Announcement) : Announcement * string :=
  (a, message_content (now w) a).

Definition frame (st st' : Monitor) : Prop :=
  sources st' = sources st ∧ debug_time st' = debug_time st
  ∧ is_first_run st' = is_first_run st.

(** [a] is dated on or after the debug cutoff of [st], if there is one. *)
Definition eligible (st : Monitor) (a : Announcement) : Prop :=
  ∃ d, strptime (date_ a) = Ok d
       ∧ ∀ cutoff, debug_time st = Some cutoff → date_leb cutoff d = true.


(** [a] is notified when it is processed in state [st]. *)
Definition notifiable (st : Monitor) (a : Announcement) : Prop :=
  is_first_run st = false ∧ (item_key a ∉ last_items st) ∧ eligible st a.

(** ** One cycle as a flat sequence of steps *)

(** The two nested loops of [check_updates] run these steps in order:
    printing, raising (a failed fetch), and the loop body on one item. *)
Inductive step : Type :=
| Out (l : list log_line)
| Fail (e : exn)
| Item (s : AnnouncementSource) (raw : raw_item s).

Definition do_step (w : World) (x : step) : M unit :=
  match x with
  | Out l => modify (emit l)
  | Fail e => lift (Raise e)
  | Item s raw => process_item w s raw
  end.

Definition source_steps (w : World) (s : AnnouncementSource) : list step :=
  match get_announcements s w with
  | (out, Ok items) =>
      Out out :: Out [LogChecking (class_name s) (length items)]
        :: map (Item s) items
  | (out, Raise e) => [Out out; Fail e]
  end.

Definition schedule (w : World) (srcs : list AnnouncementSource) : list step :=
  concat (map (source_steps w) srcs).

(** What [check_updates] does after the loops, or in its handler. *)
Definition end_of_cycle (r : result unit * Monitor) : result unit * Monitor :=
  match r with
  | (Ok _, st1) =>
      if is_first_run st1
      then (Ok tt, set_is_first_run false
                     (emit [LogFirstRun (size (last_items st1))] st1))
      else (Ok tt, st1)
  | (Raise e, st1) => (Ok tt, emit [LogCheckError e] st1)
  end.

(** ** The announcements of a cycle *)

Fixpoint normalize_all (s : AnnouncementSource) (raws : list (raw_item s))
  : result (list Announcement) :=
  match raws with
  | [] => Ok []
  | raw :: raws' =>
      rbind (normalize s raw) (fun p =>
      rbind (normalize_all s raws') (fun l => Ok (fst p :: l)))
  end.

(** The announcements the adapters return in world [w], in the order the
    cycle meets them: [Ok] when every fetch returns and every item
    normalizes to an announcement whose date parses. *)
Fixpoint cycle_announcements (w : World) (srcs : list AnnouncementSource)
  : result (list Announcement) :=
  match srcs with
  | [] => Ok []
  | s :: srcs' =>
      rbind (snd (get_announcements s w)) (fun raws =>
      rbind (normalize_all s raws) (fun l =>
      rbind (cycle_announcements w srcs') (fun l' => Ok (l ++ l')%list)))
  end.

Fixpoint steps_announcements (xs : list step) : result (list Announcement) :=
  match xs with
  | [] => Ok []
  | Out _ :: xs' => steps_announcements xs'
  | Fail e :: _ => Raise e
  | Item s raw :: xs' =>
      rbind (normalize s raw) (fun p =>
      rbind (steps_announcements xs') (fun l => Ok (fst p :: l)))
  end.

(** Every item of the cycle that normalizes has its key in the ledger. *)
Definition keys_seen (st : Monitor) (s : AnnouncementSource)
    (raws : list (raw_item s)) : bool :=
  forallb (λ raw, match format_notification s raw with
                  | Ok a => bool_decide (item_key a ∈ last_items st)
                  | Raise _ => true
                  end) raws.

Definition every_key_seen (w : World) (st : Monitor) : bool :=
  forallb (λ s, match snd (get_announcements s w) with
                | Ok raws => keys_seen st s raws
                | Raise _ => true
                end) (sources st).

Definition step_seen (L : gset string) (x : step) : Prop :=
  match x with
  | Item s raw => match format_notification s raw with
                  | Ok a => item_key a ∈ L
                  | Raise _ => True
                  end
  | _ => True
  end.

(** The adapter fails in world [w]: its fetch raises, or one of the items
    it returns does not normalize. *)
Definition adapter_fails (w : World) (s : AnnouncementSource) : bool :=
  match snd (get_announcements s w) with
  | Raise _ => true
  | Ok raws => existsb (λ raw, negb (is_ok (normalize s raw))) raws
  end.

(** ** Runs *)

(** How many of the POSTs [ps] notify an announcement of key [k]. *)
Definition notified (k : string) (ps : list (Announcement * string)) : nat :=
  length (filter (λ p, item_key (fst p) = k) ps).

(** Every POST to the webhook gets a response, of whatever status. *)
Definition webhook_responds (w : World) : Prop :=
  ∀ n content, is_ok (requests_post w n content) = true.

(** [st'] is reachable from [st]: the configuration is the same, the
    steady state is kept, the ledger has grown, and each new POST notifies
    an announcement that was notifiable in a state between the two. *)
Definition evolves (st st' : Monitor) : Prop :=
  sources st' = sources st
  ∧ debug_time st' = debug_time st
  ∧ (is_first_run st = false → is_first_run st' = false)
  ∧ last_items st ⊆ last_items st'
  ∧ ∃ new, posted st' = (posted st ++ new)%list
           ∧ Forall (λ p, ∃ st1, last_items st ⊆ last_items st1
                              ∧ debug_time st1 = debug_time st
                              ∧ notifiable st1 (fst p)) new.


(** ** Vocabulary of the further properties *)

(** No white-space character starts anywhere in [l]. *)
Fixpoint no_ws (l : list ascii) : bool :=
  match l with
  | [] => true
  | _ :: l' => (Py.space_len l =? 0)%nat && no_ws l'
  end.

(** [s] holds no white space. *)
Definition no_space (s : string) : Prop := no_ws (Py.chars s) = true.

(** No white-space character starts in the run [t] when [l] follows it. *)
Definition clean_run (t l : list ascii) : Prop :=
  ∀ u1 u2, t = (u1 ++ u2)%list → u2 ≠ [] → Py.space_len (u2 ++ l) = 0%nat.

(** The answer [r] of the Weixin API is a success that lists [l]: status
    200, a JSON object whose [errorcode] is 0 and whose [data.contentlist]
    is the list [l]. *)
Definition lists_contents (r : Response) (l : list json) : Prop :=
  status_code r = 200
  ∧ ∃ data code d,
      json_body r = Ok data
      ∧ json_get data "errorcode" = Ok code ∧ json_is_zero code = true
      ∧ json_item data "data" = Ok d
      ∧ json_item d "contentlist" = Ok (JList l).

(** In debug mode, [a] is dated on or after the cutoff. *)
Definition is_candidate (cutoff : date) (a : Announcement) : bool :=
  match strptime (date_ a) with
  | Ok d => date_leb cutoff d
  | Raise _ => false
  end.

(** The announcements a cycle looks at: all of them in normal mode,
    those dated on or after the cutoff in debug mode. *)
Definition considered (dt : option date) (anns : list Announcement)
  : list Announcement :=
  match dt with
  | Some cutoff => List.filter (is_candidate cutoff) anns
  | None => anns
  end.

(** The announcements of [anns] whose key is not in [L], each key at its
    first occurrence only. *)
Fixpoint first_new (L : gset string) (anns : list Announcement)
  : list Announcement :=
  match anns with
  | [] => []
  | a :: anns' =>
      if bool_decide (item_key a ∈ L) then first_new L anns'
      else a :: first_new ({[item_key a]} ∪ L) anns'
  end.

(** Since a state in which [k] had been notified [n0] times, [k] has
    been notified once more at most, and is then in the ledger. *)
Definition at_most_once (k : string) (n0 : nat) (st : Monitor) : Prop :=
  ((k ∉ last_items st) ∧ notified k (posted st) = n0)
  ∨ (k ∈ last_items st ∧ (notified k (posted st) ≤ S n0)%nat).

(** Every key of the ledger of [st'] was in that of [st] or is the key
    of an announcement eligible in [st]. *)
Definition grows (st st' : Monitor) : Prop :=
  debug_time st' = debug_time st
  ∧ ∀ k, k ∈ last_items st' →
         k ∈ last_items st ∨ ∃ a, item_key a = k ∧ eligible st a.

(** The date [d] is on or after the cutoff, if there is one. *)
Definition passes_cutoff (dt : option date) (d : date) : bool :=
  match dt with Some cutoff => date_leb cutoff d | None => true end.

(** * Concrete worlds and monitors, for the examples *)

Module Scenario.

Definition response (code : Z) (body : string) (js : result json)
    (sel : string → result (list Node)) : Response :=
  {| status_code := code; text := body; json_body := js; select := sel |}.

(** A page on which [soup.select(sel)] finds [nodes]. *)
Definition page (sel : string) (nodes : list Node) : Response :=
  response 200 "<html>" (Raise JSONDecodeError)
    (λ s, if decide (s = sel) then Ok nodes else Ok []).

(** A Tencent list item: a link with text [t] and target [href], and a
    time span with text [d]. *)
Definition tencent_row (t href d : string) : Node :=
  {| select_one := λ s,
       if decide (s = ".msg-list-con a")
       then Ok (Some {| el_text := t; el_attrs := [("href", href)] |})
       else if decide (s = ".msg-list-aside span")
       then Ok (Some {| el_text := d; el_attrs := [] |})
       else Ok None |}.

Definition tencent_page (rows : list Node) : Response :=
  page ".msg-list-bd .msg-list-item" rows.

(** The JSON answer of the Weixin API with the given content list. *)
Definition weixin_json (l : list json) : Response :=
  response 200 "{}"
    (Ok (JObj [("errorcode", JNum 0);
               ("data", JObj [("contentlist", JList l)])]))
    (λ _, Ok []).

Definition weixin_item : json :=
  JObj [("contentId", JNum 7); ("contentTitle", JStr "T");
        ("contentPublishTime", JNum 1738000000)].

Definition webhook_ok : Response :=
  response 200 "ok" (Raise JSONDecodeError) (λ _, Ok []).
Definition webhook_500 : Response :=
  response 500 "internal error" (Raise JSONDecodeError) (λ _, Ok []).

(** A world: the answers to the two Weixin requests (the first one
    carries [pagenum]), to the Tencent and Yeepay requests, and to every
    POST to the webhook. *)
Definition world (weixin1 weixin2 tencent yeepay webhook : result Response)
  : World :=
  {| requests_get := λ u params,
       if decide (u = WeixinPay.base_url)
       then match params !! "pagenum" with
            | Some _ => weixin1
            | None => weixin2
            end
       else if decide (u = TencentCloud.url_) then tencent
       else if decide (u = Yeepay.url_) then yeepay
       else Raise ConnectionError;
     requests_post := λ _ _, webhook;
     now := "2025-02-01 08:00:00" |}.

Definition rowA : Node :=
  tencent_row " A " "/announce/detail/1" "2025-01-01 10:00:00".
Definition rowB : Node := tencent_row "B" "/announce/detail/2" "2025-01-02".
Definition row_no_time : Node := tencent_row "C" "/announce/detail/5" " ".

Definition annA : Announcement :=
  {| title := "A"; date_ := "2025-01-01"; time := "10:00:00";
     url := "https://cloud.tencent.com/announce/detail/1";
     source := "腾讯云" |}.
Definition annB : Announcement :=
  {| title := "B"; date_ := "2025-01-02"; time := EmptyString;
     url := "https://cloud.tencent.com/announce/detail/2";
     source := "腾讯云" |}.

(** Only Tencent is reachable and lists [rows]. *)
Definition tencent_only (rows : list Node) (webhook : result Response)
  : World :=
  world (Raise ConnectionError) (Raise ConnectionError)
    (Ok (tencent_page rows)) (Raise ConnectionError) webhook.

Definition w_A : World := tencent_only [rowA] (Ok webhook_ok).
Definition w_AB : World := tencent_only [rowA; rowB] (Ok webhook_ok).
Definition w_AB_500 : World := tencent_only [rowA; rowB] (Ok webhook_500).
(** The same listings with an unreachable webhook: every POST raises. *)
Definition w_AB_down : World :=
  tencent_only [rowA; rowB] (Raise ConnectionError).
Definition w_no_time : World := tencent_only [row_no_time] (Ok webhook_ok).

(** Weixin answers with empty lists, Tencent lists [rows]. *)
Definition weixin_up (rows : list Node) : World :=
  world (Ok (weixin_json [])) (Ok (weixin_json []))
    (Ok (tencent_page rows)) (Raise ConnectionError) (Ok webhook_ok).
(** Weixin is unreachable, Tencent lists [rows]. *)
Definition weixin_down (rows : list Node) : World :=
  tencent_only rows (Ok webhook_ok).
(** The first Weixin request succeeds with one item, the second fails. *)
Definition weixin_half : World :=
  world (Ok (weixin_json [weixin_item])) (Raise ConnectionError)
    (Raise ConnectionError) (Raise ConnectionError) (Ok webhook_ok).
(** The first Weixin request is answered 200 with a body that is no JSON. *)
Definition weixin_garbled : World :=
  world (Ok webhook_ok) (Ok (weixin_json []))
    (Raise ConnectionError) (Raise ConnectionError) (Ok webhook_ok).

(** The Weixin adapter of the scenarios: its two library parameters are
    never reached here, no scenario normalizes a Weixin item. *)
Definition weixin : AnnouncementSource :=
  WeixinPay.Source (λ _, Raise ValueError) (λ _, EmptyString).

(** A monitor watching Tencent only. *)
Definition m_tencent : Monitor :=
  snd (add_source TencentCloud.Source new_monitor).
(** Weixin, then Tencent, then Yeepay, as the main program registers. *)
Definition m_main : Monitor :=
  snd ((add_source weixin ;;;
        add_source TencentCloud.Source ;;;
        add_source Yeepay.Source) new_monitor).

(** [m_tencent] after a first cycle that saw announcement A. *)
Definition st_A : Monitor := snd (check_updates w_A m_tencent).
(** [m_main] after a first cycle that saw nothing. *)
Definition st_main : Monitor := snd (check_updates (weixin_up []) m_main).

Definition itemB : TencentCloud.item :=
  {| TencentCloud.title_ := "B"; TencentCloud.announceId := "2";
     TencentCloud.beginTime := "2025-01-02" |}.
Definition item_no_time : TencentCloud.item :=
  {| TencentCloud.title_ := "C"; TencentCloud.announceId := "5";
     TencentCloud.beginTime := EmptyString |}.

(** Two announcements with one key. *)
Definition ann_ab_c : Announcement :=
  {| title := "c"; date_ := "2025-01-01"; time := EmptyString;
     url := EmptyString; source := "a_b" |}.
Definition ann_a_bc : Announcement :=
  {| title := "b_c"; date_ := "2025-01-01"; time := EmptyString;
     url := EmptyString; source := "a" |}.
(** Two Tencent announcements, one with the separator in its title. *)
Definition ann_v1_final : Announcement :=
  {| title := "v1_final"; date_ := "2025-01-01"; time := "10:00:00";
     url := EmptyString; source := "腾讯云" |}.
Definition ann_v1 : Announcement :=
  {| title := "v1"; date_ := "2025-01-01"; time := EmptyString;
     url := EmptyString; source := "腾讯云" |}.

(** A Tencent list item whose link has no [href]. *)
Definition row_no_href : Node :=
  {| select_one := λ s,
       if decide (s = ".msg-list-con a")
       then Ok (Some {| el_text := "D"; el_attrs := [] |})
       else if decide (s = ".msg-list-aside span")
       then Ok (Some {| el_text := "2025-01-03"; el_attrs := [] |})
       else Ok None |}.

Definition itemA : TencentCloud.item :=
  {| TencentCloud.title_ := "A"; TencentCloud.announceId := "1";
     TencentCloud.beginTime := "2025-01-01 10:00:00" |}.

Definition weixin_pinned : json :=
  JObj [("contentId", JNum 8); ("contentTitle", JStr "P");
        ("contentPublishTime", JNum 1738100000)].

(** Both Weixin requests succeed: one normal item, one pinned item. *)
Definition weixin_both : World :=
  world (Ok (weixin_json [weixin_item])) (Ok (weixin_json [weixin_pinned]))
    (Raise ConnectionError) (Raise ConnectionError) (Ok webhook_ok).

(** A 200 answer of the Weixin API that reports an error and has no data. *)
Definition weixin_refused : Response :=
  response 200 "{}" (Ok (JObj [("errorcode", JNum 268)])) (λ _, Ok []).

Definition yeepay_item : Yeepay.item :=
  {| Yeepay.title_ := "B"; Yeepay.noticeId := "2";
     Yeepay.pubTime := "2025-01-02" |}.

(** A fixed clock for the Weixin adapter. *)
Definition clock (n : Z) : result (string * string) :=
  Ok ("2025-01-02", "08:00:00").
Definition weixin_B : json :=
  JObj [("contentId", JNum 2); ("contentTitle", JStr "B");
        ("contentPublishTime", JNum 1735776000)].

(** The announcement B as the Weixin and the Yeepay adapters would
    normalize it. *)
Definition ann_weixin_B : Announcement :=
  {| title := "B"; date_ := "2025-01-02"; time := "08:00:00";
     url := "https://pay.weixin.qq.com/index.php/public/cms/content_detail?id=n";
     source := "微信支付" |}.
Definition ann_yeepay_B : Announcement :=
  {| title := "B"; date_ := "2025-01-02"; time := EmptyString;
     url := "https://www.yeepay.com/notice-detail/2";
     source := "易宝支付" |}.

End Scenario.

Import Scenario.

(** * Proofs *)

Ltac run_m :=
  unfold bind, lift, gets, modify, print, ret, add_key, call, try_except; simpl.

Ltac fin := repeat split; done.

(** Decides a closed decidable proposition by evaluation. *)
Ltac by_computation := refine (bool_decide_unpack _ _); vm_compute; exact I.

(** ** Identity keys *)

Lemma chars_app s1 s2 : Py.chars (s1 +:+ s2) = (Py.chars s1 ++ Py.chars s2)%list.
Proof. induction s1 as [|c s1 IH]; simpl; [done|]. unfold Py.chars in *. simpl. by rewrite IH. Qed.

Lemma chars_inj s1 s2 : Py.chars s1 = Py.chars s2 → s1 = s2.
Proof.
  intros H. rewrite <- (string_of_list_ascii_of_string s1), <- (string_of_list_ascii_of_string s2).
  unfold Py.chars in H. by rewrite H.
Qed.

Lemma first_field_unique {A} (x : A) l1 r1 l2 r2 :
  (l1 ++ x :: r1 = l2 ++ x :: r2)%list → x ∉ l1 → x ∉ l2 → l1 = l2 ∧ r1 = r2.
Proof.
  revert l2. induction l1 as [|a l1 IH]; intros [|b l2] H H1 H2; simplify_eq/=.
  - done.
  - exfalso. apply H2. left.
  - exfalso. apply H1. left.
  - apply not_elem_of_cons in H1 as [? ?], H2 as [? ?].
    destruct (IH l2) as [-> ->]; auto.
Qed.

Lemma last_field_unique {A} (x : A) l1 r1 l2 r2 :
  (l1 ++ x :: r1 = l2 ++ x :: r2)%list → x ∉ r1 → x ∉ r2 → l1 = l2 ∧ r1 = r2.
Proof.
  intros H H1 H2. apply (f_equal reverse) in H.
  rewrite !reverse_app, !reverse_cons, <- !app_assoc in H. simpl in H.
  apply first_field_unique in H as [Hr Hl]; [|by rewrite elem_of_reverse..].
  split; [|by apply (inj reverse)]. by apply (inj reverse).
Qed.

Lemma split_on_join c l :
  Py.split_on c l ≠ [] ∧ join_fields c (Py.split_on c l) = l.
Proof.
  induction l as [|a l [IH1 IH2]]; simpl; [done|].
  case_decide; subst.
  - split; [done|]. destruct (Py.split_on c l) eqn:E; [done|]. simpl in *. by rewrite IH2.
  - destruct (Py.split_on c l) as [|f fs] eqn:E; [done|]. split; [done|].
    simpl in *. destruct fs; simpl; by rewrite <- IH2.
Qed.

Ltac date_chars :=
  repeat (apply List.Forall_cons || apply List.Forall_nil);
  first [by left | right; eauto].

Lemma parse_year_chars l y : parse_year l = Some y → Forall date_char l.
Proof.
  unfold parse_year. intros H.
  destruct l as [|a [|b [|c [|d [|]]]]]; try done.
  destruct (digit a) eqn:Ea; [|done].
  destruct (digit b) eqn:Eb; [|done].
  destruct (digit c) eqn:Ec; [|done].
  destruct (digit d) eqn:Ed; [|done].
  date_chars.
Qed.

Lemma parse_month_chars l m : parse_month l = Some m → Forall date_char l.
Proof.
  unfold parse_month. intros H.
  destruct l as [|a [|b [|]]]; try done.
  - destruct (digit a) eqn:Ea; [|done]. date_chars.
  - destruct (digit a) as [za|] eqn:Ea; [|done].
    destruct (digit b) eqn:Eb; [|by destruct za as [|[]|]].
    date_chars.
Qed.

Lemma parse_day_chars l d : parse_day l = Some d → Forall date_char l.
Proof.
  unfold parse_day. intros H.
  destruct l as [|a [|b [|]]]; try done.
  - destruct (digit a) eqn:Ea; [|done]. date_chars.
  - destruct (digit b) eqn:Eb; [|done].
    case_decide; subst.
    + date_chars.
    + destruct (digit a) eqn:Ea; [|done]. date_chars.
Qed.

Lemma date_char_not_sep l : Forall date_char l → sep ∉ l.
Proof.
  intros H Hin. rewrite Forall_forall in H. apply H in Hin as [?|[? ?]]; done.
Qed.

(** A string that [strptime] accepts holds no separator. *)
Lemma strptime_no_sep s d : strptime s = Ok d → no_sep s.
Proof.
  unfold strptime, no_sep. intros H.
  destruct (split_on_join "-" (Py.chars s)) as [_ Hj].
  destruct (Py.split_on "-" (Py.chars s)) as [|ys [|ms [|ds [|]]]]; try done.
  destruct (parse_year ys) eqn:Ey; [|done].
  destruct (parse_month ms) eqn:Em; [|done].
  destruct (parse_day ds) eqn:Ed; [|done].
  rewrite <- Hj. simpl.
  apply parse_year_chars, date_char_not_sep in Ey.
  apply parse_month_chars, date_char_not_sep in Em.
  apply parse_day_chars, date_char_not_sep in Ed.
  unfold sep in *.
  repeat (rewrite elem_of_app || rewrite elem_of_cons).
  intros [?|[?|[?|[?|?]]]]; done.
Qed.

Lemma item_key_chars A :
  Py.chars (item_key A)
  = (Py.chars (source A) ++ sep :: Py.chars (title A) ++ sep :: Py.chars (date_ A))%list.
Proof. unfold item_key. by rewrite !chars_app. Qed.

(** Claim C3 fails as stated: source ["a_b"] with title ["c"], and source
    ["a"] with title ["b_c"], on the same date, have the same key, here
    ["a_b_c_2025-01-01"], and are different announcements. *)
Lemma item_key_collision :
  ¬ (item_key ann_ab_c = item_key ann_a_bc ↔ same_triple ann_ab_c ann_a_bc).
Proof. intros [H _]. destruct (H eq_refl) as [Hs _]. discriminate Hs. Qed.

(** Claim C3, as amended: for two announcements whose sources hold no
    separator and whose dates are accepted by [strptime] (as [check_updates]
    requires before it computes a key), the identity keys are equal exactly
    when the sources, the titles and the dates are; the titles may hold the
    separator, and the time and url fields play no part. *)
Theorem item_key_injective (A B : Announcement) (dA dB : date) :
  no_sep (source A) → no_sep (source B) →
  strptime (date_ A) = Ok dA → strptime (date_ B) = Ok dB →
  item_key A = item_key B ↔ same_triple A B.
Proof.
  intros HA HB HdA HdB. split.
  - intros H. apply (f_equal Py.chars) in H. rewrite !item_key_chars in H.
    apply first_field_unique in H as [Hs H]; [|done..].
    apply last_field_unique in H as [Ht Hd]; [|by eapply strptime_no_sep..].
    repeat split; by apply chars_inj.
  - intros (Hs & Ht & Hd). unfold item_key. by rewrite Hs, Ht, Hd.
Qed.

Lemma item_key_injective_witness :
  item_key ann_v1_final = item_key ann_v1 ↔ same_triple ann_v1_final ann_v1.
Proof.
  apply (item_key_injective ann_v1_final ann_v1 (Date 2025 1 1) (Date 2025 1 1));
    solve [unfold no_sep; by_computation | reflexivity].
Defined.

(** ** The adapters *)

(** [TencentCloudSource.get_announcements] and
    [YeepaySource.get_announcements] return a list in every world. *)
Lemma tencent_get_announcements_total w :
  ∃ l, snd (TencentCloud.get_announcements w) = Ok l.
Proof.
  unfold TencentCloud.get_announcements.
  destruct (requests_get w _ _) as [response|e]; [|by exists []].
  destruct (negb _); [by exists []|].
  destruct (select response _) as [ns|e]; [|by exists []].
  destruct (TencentCloud.parse_items ns) as [out l]. by exists l.
Qed.

Lemma yeepay_get_announcements_total w :
  ∃ l, snd (Yeepay.get_announcements w) = Ok l.
Proof.
  unfold Yeepay.get_announcements.
  destruct (requests_get w _ _) as [response|e]; [|by exists []].
  destruct (negb _); [by exists []|].
  destruct (select response _) as [trs|e]; [|by exists []].
  destruct (Yeepay.parse_items trs) as [out l]. by exists l.
Qed.

(** On a network error they print one line and return the empty list. *)
Lemma tencent_network_error w e :
  requests_get w TencentCloud.url_ ∅ = Raise e →
  TencentCloud.get_announcements w = ([LogFetchTencent e], Ok []).
Proof. unfold TencentCloud.get_announcements. by intros ->. Qed.

Lemma yeepay_network_error w e :
  requests_get w Yeepay.url_ ∅ = Raise e →
  Yeepay.get_announcements w = ([LogFetchYeepay e], Ok []).
Proof. unfold Yeepay.get_announcements. by intros ->. Qed.

(** [WeixinPaySource.get_announcements] keeps the items of the first
    request when the second one is answered with a status other than 200. *)
Lemma weixin_second_not_200 w r1 r2 :
  requests_get w WeixinPay.base_url WeixinPay.params1 = Ok r1 →
  requests_get w WeixinPay.base_url WeixinPay.params2 = Ok r2 →
  status_code r2 ≠ 200 →
  snd (WeixinPay.get_announcements w) = WeixinPay.extend_from [] r1.
Proof.
  intros H1 H2 Hs. unfold WeixinPay.get_announcements. simpl.
  rewrite H1, H2. simpl. destruct (WeixinPay.extend_from [] r1) as [l|]; [|done].
  simpl. unfold WeixinPay.extend_from. by rewrite (proj2 (Z.eqb_neq _ _) Hs).
Qed.

(** Claim C2 fails on the code for [WeixinPaySource], whose
    [get_announcements] has no handler: it raises when a request fails on
    the network and when a body answered with status 200 is not JSON, and
    when the second request fails after the first one returned an item,
    that item is lost with the exception. *)
Theorem weixin_get_announcements_raises :
  snd (WeixinPay.get_announcements (weixin_down [])) = Raise ConnectionError
  ∧ snd (WeixinPay.get_announcements weixin_garbled) = Raise JSONDecodeError
  ∧ WeixinPay.extend_from [] (weixin_json [weixin_item]) = Ok [weixin_item]
  ∧ snd (WeixinPay.get_announcements weixin_half) = Raise ConnectionError.
Proof. repeat split; reflexivity. Qed.

(** A published-time text that is a date alone gives the empty time. *)
Lemma tencent_time_degrades it d :
  Py.split (TencentCloud.beginTime it) = [d] →
  TencentCloud.format_notification it
  = Ok {| title := TencentCloud.title_ it; date_ := d; time := EmptyString;
          url := "https://cloud.tencent.com/announce/detail/"
                 +:+ TencentCloud.announceId it;
          source := "腾讯云" |}.
Proof. unfold TencentCloud.format_notification. by intros ->. Qed.

Lemma yeepay_time_degrades it d :
  Py.split (Yeepay.pubTime it) = [d] →
  Yeepay.format_notification it
  = Ok {| title := Yeepay.title_ it; date_ := d; time := EmptyString;
          url := "https://www.yeepay.com/notice-detail/" +:+ Yeepay.noticeId it;
          source := "易宝支付" |}.
Proof. unfold Yeepay.format_notification. by intros ->. Qed.

(** With at least one field in the published-time text,
    [format_notification] returns. *)
Lemma tencent_format_ok it :
  Py.split (TencentCloud.beginTime it) ≠ [] →
  is_ok (TencentCloud.format_notification it) = true.
Proof.
  unfold TencentCloud.format_notification.
  by destruct (Py.split _) as [|d [|t l]].
Qed.

(** Claim C9 fails on the code: a Tencent list item whose time span holds
    only white space is returned by [get_announcements] with an empty
    [beginTime], on which [format_notification] raises [IndexError]
    ([date_time[0]] on the empty list); the exception ends the cycle in the
    handler of [check_updates], and a first run stays a first run. *)
Theorem tencent_format_fails_on_empty_time :
  snd (TencentCloud.get_announcements w_no_time) = Ok [item_no_time]
  ∧ TencentCloud.format_notification item_no_time = Raise IndexError
  ∧ stdout (snd (check_updates w_no_time m_tencent))
    = [LogChecking "TencentCloudSource" 1; LogCheckError IndexError]
  ∧ is_first_run (snd (check_updates w_no_time m_tencent)) = true.
Proof. repeat split; reflexivity. Qed.

(** ** The loop body on one item *)

Lemma process_item_raise w s raw e st :
  normalize s raw = Raise e → process_item w s raw st = (Raise e, st).
Proof.
  unfold normalize, process_item. run_m.
  destruct (format_notification s raw) as [a|]; simpl; [|congruence].
  destruct (strptime (date_ a)); simpl; congruence.
Qed.

(** What [process_item] does with an item that normalizes, by the case
    of [decide_action]. *)
Lemma process_item_spec w s raw a d st :
  normalize s raw = Ok (a, d) →
  let r := process_item w s raw st in
  frame st (snd r) ∧
  match decide_action st a d with
  | Skip => fst r = Ok tt ∧ last_items (snd r) = last_items st
            ∧ posted (snd r) = posted st
  | Baseline => fst r = Ok tt
            ∧ last_items (snd r) = {[item_key a]} ∪ last_items st
            ∧ posted (snd r) = posted st
  | Notify =>
      posted (snd r) = (posted st ++ [post_of w a])%list ∧
      match requests_post w (length (posted st)) (message_content (now w) a) with
      | Ok _ => fst r = Ok tt
                ∧ last_items (snd r) = {[item_key a]} ∪ last_items st
      | Raise e => fst r = Raise e ∧ last_items (snd r) = last_items st
      end
  end.
Proof.
  unfold normalize, process_item, decide_action, send_notification, frame. run_m.
  destruct (format_notification s raw) as [a'|]; simpl; [|done].
  destruct (strptime (date_ a')) as [d'|]; simpl; [|done].
  intros [= -> ->].
  destruct (debug_time st) as [c|] eqn:Hd; simpl.
  - destruct (date_leb c d); simpl; [|fin].
    destruct (is_first_run st) eqn:Hf; simpl; [fin|].
    case_bool_decide; simpl; [fin|].
    destruct (requests_post _ _ _) as [resp|]; simpl; [|fin].
    destruct (status_code resp =? 200); fin.
  - case_bool_decide; simpl; [fin|].
    destruct (is_first_run st) eqn:Hf; simpl; [fin|].
    destruct (requests_post _ _ _) as [resp|]; simpl; [|fin].
    destruct (status_code resp =? 200); fin.
Qed.

Lemma normalize_date s raw a d :
  normalize s raw = Ok (a, d) → strptime (date_ a) = Ok d.
Proof.
  unfold normalize. destruct (format_notification s raw) as [a'|]; simpl; [|done].
  destruct (strptime (date_ a')) eqn:E; simpl; [|done]. by intros [= <- <-].
Qed.

Lemma decide_action_notify st a d :
  strptime (date_ a) = Ok d → decide_action st a d = Notify → notifiable st a.
Proof.
  unfold decide_action, notifiable, eligible. intros Hd H.
  destruct (debug_time st) as [c|].
  - destruct (date_leb c d) eqn:Hc; [|done].
    destruct (is_first_run st); [done|]. case_bool_decide; [done|].
    repeat split; [done|]. exists d. split; [done|]. by intros ? [= <-].
  - case_bool_decide; [done|]. destruct (is_first_run st); [done|].
    repeat split; [done|]. by exists d.
Qed.


Lemma action_first_normal st a d :
  is_first_run st = true → debug_time st = None →
  decide_action st a d
  = if bool_decide (item_key a ∈ last_items st) then Skip else Baseline.
Proof. unfold decide_action. by intros -> ->. Qed.

Lemma action_seen st a d :
  is_first_run st = false → item_key a ∈ last_items st →
  decide_action st a d = Skip.
Proof.
  unfold decide_action. intros -> Hin. rewrite bool_decide_eq_true_2 by done.
  destruct (debug_time st); [by destruct (date_leb _ _)|done].
Qed.

Lemma action_notify st a d :
  is_first_run st = false → eligible st a → item_key a ∉ last_items st →
  strptime (date_ a) = Ok d → decide_action st a d = Notify.
Proof.
  unfold decide_action. intros -> (d' & Hd' & Hc) Hk Hd.
  rewrite bool_decide_eq_false_2 by done.
  rewrite Hd in Hd'. injection Hd' as <-.
  destruct (debug_time st) as [c|] eqn:E; [|done]. by rewrite (Hc c eq_refl).
Qed.

(** When the POST itself raises, the exception leaves [process_item]
    before the key is added: the announcement stays unseen. *)
Lemma raised_delivery_leaves_key_unseen w s raw a d st e :
  normalize s raw = Ok (a, d) →
  is_first_run st = false → eligible st a → item_key a ∉ last_items st →
  requests_post w (length (posted st)) (message_content (now w) a) = Raise e →
  let r := process_item w s raw st in
  fst r = Raise e
  ∧ posted (snd r) = (posted st ++ [post_of w a])%list
  ∧ last_items (snd r) = last_items st.
Proof.
  intros Hn Hf He Hk Hpost.
  pose proof (normalize_date _ _ _ _ Hn) as Hdate.
  pose proof (process_item_spec w s raw a d st Hn) as [_ H]. simpl in H.
  rewrite (action_notify st a d) in H by done. rewrite Hpost in H.
  destruct H as (Hp & Hr & Hl). done.
Qed.

(** ** The loops *)

Lemma for_each_cons {A} (f : A → M unit) a l st :
  for_each (a :: l) f st
  = match f a st with
    | (Ok _, st1) => for_each l f st1
    | (Raise e, st1) => (Raise e, st1)
    end.
Proof. simpl. run_m. by destruct (f a st) as [[[]|?] ?]. Qed.

Lemma for_each_app {A} (f : A → M unit) l1 l2 st :
  for_each (l1 ++ l2) f st = bind (for_each l1 f) (fun _ => for_each l2 f) st.
Proof.
  revert st. induction l1 as [|a l1 IH]; intros st; simpl; run_m; [done|].
  destruct (f a st) as [[[]|e] st1]; [|done]. rewrite IH. by run_m.
Qed.

Lemma for_each_map {A B} (g : A → B) (f : B → M unit) l st :
  for_each (map g l) f st = for_each l (λ a, f (g a)) st.
Proof.
  revert st. induction l as [|a l IH]; intros st; simpl; run_m; [done|].
  destruct (f (g a) st) as [[[]|e] st1]; [apply IH|done].
Qed.

Lemma for_each_inv {A} (I : Monitor → Prop) (f : A → M unit) (l : list A) :
  (∀ a st, a ∈ l → I st → I (snd (f a st))) →
  ∀ st, I st → I (snd (for_each l f st)).
Proof.
  induction l as [|a l IH]; intros Hf st HI; simpl; [done|]. run_m.
  pose proof (Hf a st (list_elem_of_here _ _) HI) as H.
  destruct (f a st) as [[[]|e] st1]; [|done].
  apply IH; [|done]. intros b st' Hb. apply Hf. by right.
Qed.

(** The nested loops of [check_updates] run the steps of [schedule]. *)

Lemma check_source_steps w s st :
  check_source w s st = for_each (source_steps w s) (do_step w) st.
Proof.
  unfold check_source, source_steps.
  destruct (get_announcements s w) as [out [items|e]]; simpl; run_m; [|done].
  rewrite for_each_map. simpl.
  by destruct (for_each items _ _) as [[[]|?] ?].
Qed.

Lemma cycle_schedule w srcs st :
  for_each srcs (check_source w) st
  = for_each (schedule w srcs) (do_step w) st.
Proof.
  revert st. induction srcs as [|s srcs IH]; intros st; [done|].
  unfold schedule. simpl. rewrite for_each_app. run_m.
  rewrite check_source_steps.
  destruct (for_each (source_steps w s) _ _) as [[[]|?] st1]; [apply IH|done].
Qed.

Lemma check_updates_steps w st :
  check_updates w st
  = end_of_cycle (for_each (schedule w (sources st)) (do_step w) st).
Proof.
  unfold check_updates, check_updates_body, end_of_cycle. run_m.
  rewrite cycle_schedule.
  destruct (for_each _ _ st) as [[[]|e] st1]; [|done].
  by destruct (is_first_run st1).
Qed.


Lemma normalize_all_steps s raws :
  steps_announcements (map (Item s) raws) = normalize_all s raws.
Proof. induction raws as [|raw raws IH]; simpl; [done|]. by rewrite IH. Qed.

Lemma steps_announcements_app xs ys :
  steps_announcements (xs ++ ys)
  = rbind (steps_announcements xs) (fun l =>
    rbind (steps_announcements ys) (fun l' => Ok (l ++ l')%list)).
Proof.
  induction xs as [|[out|e|s raw] xs IH]; simpl.
  - by destruct (steps_announcements ys).
  - done.
  - done.
  - destruct (normalize s raw) as [p|]; simpl; [|done]. rewrite IH.
    destruct (steps_announcements xs); simpl; [|done].
    by destruct (steps_announcements ys).
Qed.

Lemma cycle_announcements_steps w srcs :
  steps_announcements (schedule w srcs) = cycle_announcements w srcs.
Proof.
  induction srcs as [|s srcs IH]; [done|].
  unfold schedule. simpl. rewrite steps_announcements_app.
  fold (schedule w srcs). rewrite IH. unfold source_steps.
  destruct (get_announcements s w) as [out [items|e]]; simpl; [|done].
  by rewrite normalize_all_steps.
Qed.

Lemma steps_dates xs : ∀ anns,
  steps_announcements xs = Ok anns →
  Forall (λ a, ∃ d, strptime (date_ a) = Ok d) anns.
Proof.
  induction xs as [|[out|e|s raw] xs IH]; intros anns Ha; simpl in *.
  - simplify_eq. constructor.
  - by apply IH.
  - done.
  - destruct (normalize s raw) as [[a d]|] eqn:Hn; [|done]. simpl in Ha.
    destruct (steps_announcements xs) as [l|]; [|done]. simplify_eq/=.
    constructor; [|by apply IH]. exists d. by eapply normalize_date.
Qed.

(** [check_updates] catches every exception, and so the loop goes on. *)

Lemma check_updates_ok w st : fst (check_updates w st) = Ok tt.
Proof.
  rewrite check_updates_steps. unfold end_of_cycle.
  destruct (for_each _ _ st) as [[[]|e] st1]; [|done].
  by destruct (is_first_run st1).
Qed.

Lemma poll_ok ws st : fst (poll ws st) = Ok tt.
Proof.
  revert st. induction ws as [|w ws IH]; intros st; simpl; [done|]. run_m.
  pose proof (check_updates_ok w st) as H.
  destruct (check_updates w st) as [[[]|e] st1]; [apply IH|done].
Qed.

(** ** Invariants of every run *)

Lemma evolves_refl st : evolves st st.
Proof.
  repeat split; try done. exists []. by rewrite app_nil_r.
Qed.

Lemma evolves_trans st1 st2 st3 :
  evolves st1 st2 → evolves st2 st3 → evolves st1 st3.
Proof.
  intros (Hs & Hd & Hf & Hl & new & Hp & Hn) (Hs' & Hd' & Hf' & Hl' & new' & Hp' & Hn').
  repeat split; [congruence|congruence|auto|set_solver|].
  exists (new ++ new')%list. split; [by rewrite Hp', Hp, app_assoc|].
  apply Forall_app. split; [done|].
  eapply Forall_impl; [exact Hn'|]. intros p (st & H1 & H2 & H3).
  exists st. split; [set_solver|]. split; [congruence|done].
Qed.

Lemma do_step_evolves w x st : evolves st (snd (do_step w x st)).
Proof.
  destruct x as [out|e|s raw]; simpl.
  - repeat split; try done. exists []. by rewrite app_nil_r.
  - apply evolves_refl.
  - destruct (normalize s raw) as [[a d]|e] eqn:Hn.
    + pose proof (process_item_spec w s raw a d st Hn) as [(Hs & Hd & Hf) H].
      simpl in H. destruct (decide_action st a d) eqn:Ha.
      * destruct H as (_ & Hl & Hp). repeat split; [done|done|congruence|by rewrite Hl|].
        exists []. by rewrite app_nil_r.
      * destruct H as (_ & Hl & Hp). repeat split; [done|done|congruence|rewrite Hl; apply union_subseteq_r|].
        exists []. by rewrite app_nil_r.
      * destruct H as [Hp Hl].
        repeat split; [done|done|congruence| |].
        -- destruct (requests_post _ _ _); destruct Hl as [_ ->]; [apply union_subseteq_r|done].
        -- exists [post_of w a]. split; [done|]. constructor; [|done].
           exists st. repeat split; try done;
             apply (decide_action_notify st a d); eauto using normalize_date.
    + rewrite (process_item_raise w s raw e st Hn). apply evolves_refl.
Qed.

Lemma for_each_evolves {A} (f : A → M unit) (l : list A) :
  (∀ a st, evolves st (snd (f a st))) →
  ∀ st, evolves st (snd (for_each l f st)).
Proof.
  intros Hf. induction l as [|a l IH]; intros st; simpl; [apply evolves_refl|].
  run_m. pose proof (Hf a st) as H. destruct (f a st) as [[[]|e] st1]; [|done].
  eapply evolves_trans; [exact H|apply IH].
Qed.

Lemma steps_evolves w xs st : evolves st (snd (for_each xs (do_step w) st)).
Proof. apply for_each_evolves. apply do_step_evolves. Qed.

Lemma check_updates_evolves w st : evolves st (snd (check_updates w st)).
Proof.
  rewrite check_updates_steps. unfold end_of_cycle.
  pose proof (steps_evolves w (schedule w (sources st)) st) as H.
  destruct (for_each _ _ st) as [[[]|e] st1]; simpl in *.
  - destruct (is_first_run st1) eqn:Hf; [|done].
    eapply evolves_trans; [exact H|].
    repeat split; simpl; try done. exists []. by rewrite app_nil_r.
  - eapply evolves_trans; [exact H|].
    repeat split; simpl; try done. exists []. by rewrite app_nil_r.
Qed.

Lemma poll_evolves ws st : evolves st (snd (poll ws st)).
Proof.
  revert st. induction ws as [|w ws IH]; intros st; simpl; [apply evolves_refl|].
  run_m. pose proof (check_updates_evolves w st) as H.
  destruct (check_updates w st) as [[[]|e] st1]; [|done].
  eapply evolves_trans; [exact H|apply IH].
Qed.

Lemma do_step_first_run w x st :
  is_first_run (snd (do_step w x st)) = is_first_run st.
Proof.
  destruct x as [out|e|s raw]; simpl; [done..|].
  destruct (normalize s raw) as [[a d]|e] eqn:Hn.
  - by destruct (process_item_spec w s raw a d st Hn) as [(_ & _ & ?) _].
  - by rewrite (process_item_raise w s raw e st Hn).
Qed.

Lemma steps_same_first_run w xs st :
  is_first_run (snd (for_each xs (do_step w) st)) = is_first_run st.
Proof.
  apply (for_each_inv (λ st', is_first_run st' = is_first_run st)); [|done].
  intros x st1 _ <-. apply do_step_first_run.
Qed.



Lemma notified_app k ps qs :
  notified k (ps ++ qs) = (notified k ps + notified k qs)%nat.
Proof. unfold notified. by rewrite filter_app, length_app. Qed.

Lemma notified_other k ps :
  Forall (λ p, item_key (fst p) ≠ k) ps → notified k ps = 0%nat.
Proof.
  unfold notified. induction 1 as [|p ps Hp _ IH]; [done|].
  by rewrite filter_cons_False.
Qed.

(** A key of the ledger is never notified again, and stays. *)
Lemma seen_never_notified st st' k :
  evolves st st' → k ∈ last_items st →
  notified k (posted st') = notified k (posted st) ∧ k ∈ last_items st'.
Proof.
  intros (_ & _ & _ & Hl & new & -> & Hn) Hk. split; [|by apply Hl].
  rewrite notified_app, (notified_other k new); [lia|].
  eapply Forall_impl; [exact Hn|]. intros p (st1 & Hsub & _ & _ & Hnot & _) <-.
  apply Hnot. by apply Hsub.
Qed.

(** ** Cycles that complete *)

Lemma steps_baseline w xs : ∀ st anns,
  is_first_run st = true → debug_time st = None →
  steps_announcements xs = Ok anns →
  ∃ st', for_each xs (do_step w) st = (Ok tt, st')
         ∧ is_first_run st' = true
         ∧ posted st' = posted st
         ∧ last_items st' = list_to_set (map item_key anns) ∪ last_items st.
Proof.
  induction xs as [|[out|e|s raw] xs IH]; intros st anns Hf Hd Ha.
  - simplify_eq/=. exists st. repeat split; try done. set_solver.
  - rewrite for_each_cons. simpl in *. run_m.
    destruct (IH (emit out st) anns) as (st' & ? & ? & ? & ?); eauto.
  - done.
  - rewrite for_each_cons. simpl in *.
    destruct (normalize s raw) as [[a d]|] eqn:Hn; [|done]. simpl in Ha.
    destruct (steps_announcements xs) as [l|] eqn:Hl; [|done]. simplify_eq/=.
    pose proof (process_item_spec w s raw a d st Hn) as [(_ & Hd1 & Hf1) H].
    simpl in H. rewrite action_first_normal in H by done.
    destruct (process_item w s raw st) as [r st1]. simpl in *.
    assert (r = Ok tt ∧ last_items st1 = {[item_key a]} ∪ last_items st
            ∧ posted st1 = posted st) as (-> & Hl1 & Hp1).
    { case_bool_decide; destruct H as (? & ? & ?); repeat split; try done.
      set_solver. }
    destruct (IH st1 l) as (st' & Hr & ? & ? & Hl'); [congruence..|done|].
    exists st'. repeat split; [done|done|congruence|]. rewrite Hl', Hl1. set_solver.
Qed.

Lemma steps_all_seen w xs : ∀ st anns,
  is_first_run st = false →
  steps_announcements xs = Ok anns →
  Forall (λ a, item_key a ∈ last_items st) anns →
  ∃ st', for_each xs (do_step w) st = (Ok tt, st')
         ∧ is_first_run st' = false
         ∧ debug_time st' = debug_time st
         ∧ posted st' = posted st
         ∧ last_items st' = last_items st.
Proof.
  induction xs as [|[out|e|s raw] xs IH]; intros st anns Hf Ha Hseen.
  - exists st. split; [reflexivity|]. repeat split; done.
  - rewrite for_each_cons. simpl in *. run_m.
    destruct (IH (emit out st) anns) as (st' & ? & ? & ? & ? & ?); [done..|].
    exists st'. repeat split; done.
  - done.
  - rewrite for_each_cons. simpl in *.
    destruct (normalize s raw) as [[a d]|] eqn:Hn; [|done]. simpl in Ha.
    destruct (steps_announcements xs) as [l|] eqn:Hl; [|done]. simplify_eq/=.
    apply Forall_cons in Hseen as [Ha Hseen].
    pose proof (process_item_spec w s raw a d st Hn) as [(_ & Hd1 & Hf1) H].
    simpl in H. rewrite action_seen in H by done.
    destruct (process_item w s raw st) as [r st1]. simpl in *.
    destruct H as (-> & Hl1 & Hp1).
    destruct (IH st1 l) as (st' & Hr & ? & ? & ? & ?); [congruence|done|by rewrite Hl1|].
    exists st'. repeat split; congruence.
Qed.



Lemma steps_one_new w xs : ∀ st l1 a l2 resp,
  is_first_run st = false →
  steps_announcements xs = Ok (l1 ++ a :: l2)%list →
  Forall (λ b, item_key b ∈ last_items st) (l1 ++ l2) →
  eligible st a → item_key a ∉ last_items st →
  requests_post w (length (posted st)) (message_content (now w) a) = Ok resp →
  ∃ st', for_each xs (do_step w) st = (Ok tt, st')
         ∧ posted st' = (posted st ++ [post_of w a])%list
         ∧ last_items st' = {[item_key a]} ∪ last_items st.
Proof.
  induction xs as [|[out|e|s raw] xs IH];
    intros st l1 a l2 resp Hf Ha Hseen He Hk Hpost.
  - simpl in Ha. by destruct l1.
  - rewrite for_each_cons. simpl in *. run_m.
    destruct (IH (emit out st) l1 a l2 resp) as (st' & ? & ? & ?); [done..|].
    by exists st'.
  - done.
  - rewrite for_each_cons. simpl in *.
    destruct (normalize s raw) as [[b d]|] eqn:Hn; [|done]. simpl in Ha.
    destruct (steps_announcements xs) as [l|] eqn:Hl; [|done]. simplify_eq/=.
    pose proof (normalize_date _ _ _ _ Hn) as Hdate.
    pose proof (process_item_spec w s raw b d st Hn) as [(_ & Hd1 & Hf1) H].
    simpl in H. destruct (process_item w s raw st) as [r st1]. simpl in *.
    destruct l1 as [|b' l1]; simplify_eq/=.
    + rewrite (action_notify st a d) in H by done.
      destruct H as [Hp1 H]. rewrite Hpost in H. destruct H as [-> Hl1].
      destruct (steps_all_seen w xs st1 l2) as (st' & Hr & _ & _ & Hp' & Hl');
        [congruence|done| |].
      { eapply Forall_impl; [exact Hseen|]. simpl. intros c Hc.
        rewrite Hl1. by apply elem_of_union_r. }
      exists st'. split; [done|]. split; congruence.
    + apply Forall_cons in Hseen as [Hb Hseen].
      rewrite action_seen in H by done. destruct H as (-> & Hl1 & Hp1).
      assert (eligible st1 a) as He1.
      { destruct He as (d' & ? & Hc). exists d'. split; [done|].
        intros c Hc'. apply Hc. congruence. }
      destruct (IH st1 l1 a l2 resp) as (st' & Hr & Hp' & Hl');
        [congruence|done|by rewrite Hl1|done|by rewrite Hl1|by rewrite Hp1|].
      exists st'. split; [done|]. split; congruence.
Qed.

Lemma steps_one_new_raised w xs : ∀ st l1 a l2 e,
  is_first_run st = false →
  steps_announcements xs = Ok (l1 ++ a :: l2)%list →
  Forall (λ b, item_key b ∈ last_items st) l1 →
  eligible st a → item_key a ∉ last_items st →
  requests_post w (length (posted st)) (message_content (now w) a) = Raise e →
  ∃ st', for_each xs (do_step w) st = (Raise e, st')
         ∧ posted st' = (posted st ++ [post_of w a])%list
         ∧ last_items st' = last_items st.
Proof.
  induction xs as [|[out|e'|s raw] xs IH];
    intros st l1 a l2 e Hf Ha Hseen He Hk Hpost.
  - simpl in Ha. by destruct l1.
  - rewrite for_each_cons. simpl in *. run_m.
    destruct (IH (emit out st) l1 a l2 e) as (st' & ? & ? & ?); [done..|].
    by exists st'.
  - done.
  - rewrite for_each_cons. simpl in *.
    destruct (normalize s raw) as [[b d]|] eqn:Hn; [|done]. simpl in Ha.
    destruct (steps_announcements xs) as [l|] eqn:Hl; [|done]. simplify_eq/=.
    pose proof (normalize_date _ _ _ _ Hn) as Hdate.
    pose proof (process_item_spec w s raw b d st Hn) as [(_ & Hd1 & Hf1) H].
    simpl in H. destruct (process_item w s raw st) as [r st1]. simpl in *.
    destruct l1 as [|b' l1]; simplify_eq/=.
    + rewrite (action_notify st a d) in H by done.
      destruct H as [Hp1 H]. rewrite Hpost in H. destruct H as [-> Hl1].
      by exists st1.
    + apply Forall_cons in Hseen as [Hb Hseen].
      rewrite action_seen in H by done. destruct H as (-> & Hl1 & Hp1).
      assert (eligible st1 a) as He1.
      { destruct He as (d' & ? & Hc). exists d'. split; [done|].
        intros c Hc'. apply Hc. congruence. }
      destruct (IH st1 l1 a l2 e) as (st' & Hr & Hp' & Hl');
        [congruence|done|by rewrite Hl1|done|by rewrite Hl1|by rewrite Hp1|].
      exists st'. split; [done|]. split; congruence.
Qed.

Lemma schedule_seen w L srcs :
  forallb (λ s, match snd (get_announcements s w) with
                | Ok raws =>
                    forallb (λ raw, match format_notification s raw with
                                    | Ok a => bool_decide (item_key a ∈ L)
                                    | Raise _ => true
                                    end) raws
                | Raise _ => true
                end) srcs = true →
  Forall (step_seen L) (schedule w srcs).
Proof.
  induction srcs as [|s srcs IH]; simpl; [constructor|].
  intros [Hs Hr]%andb_prop. unfold schedule. simpl. apply Forall_app.
  split; [|by apply IH]. unfold source_steps.
  destruct (get_announcements s w) as [out [raws|e]]; simpl in *.
  - do 2 (constructor; [done|]). clear IH Hr.
    induction raws as [|raw raws IH]; simpl in *; [constructor|].
    apply andb_prop in Hs as [H1 H2]. constructor; [|by apply IH].
    simpl. destruct (format_notification s raw); [|done].
    by apply bool_decide_eq_true in H1.
  - by repeat constructor.
Qed.

Lemma steps_silent w xs st :
  is_first_run st = false → Forall (step_seen (last_items st)) xs →
  let st' := snd (for_each xs (do_step w) st) in
  is_first_run st' = false ∧ posted st' = posted st
  ∧ last_items st' = last_items st.
Proof.
  intros Hf Hseen.
  apply (for_each_inv (λ st', is_first_run st' = false ∧ posted st' = posted st
                              ∧ last_items st' = last_items st)); [|done].
  intros x st1 Hx (Hf1 & Hp1 & Hl1).
  rewrite Forall_forall in Hseen. specialize (Hseen x Hx).
  destruct x as [out|e|s raw]; simpl; [done..|].
  destruct (normalize s raw) as [[a d]|e] eqn:Hn.
  - pose proof (process_item_spec w s raw a d st1 Hn) as [(_ & _ & Hf2) H].
    simpl in *. rewrite action_seen in H; [| done |].
    + destruct H as (_ & -> & ->). repeat split; congruence.
    + unfold normalize in Hn.
      destruct (format_notification s raw) as [a'|]; simpl in *; [|done].
      destruct (strptime (date_ a')); simplify_eq/=. by rewrite Hl1.
  - by rewrite (process_item_raise w s raw e st1 Hn).
Qed.

Lemma items_fail w s raws :
  existsb (λ raw, negb (is_ok (normalize s raw))) raws = true →
  ∀ st, ∃ e, fst (for_each raws (process_item w s) st) = Raise e.
Proof.
  induction raws as [|raw raws IH]; [done|]. intros H st.
  rewrite for_each_cons. simpl in H.
  destruct (normalize s raw) as [p|e] eqn:Hn; simpl in H.
  - destruct (process_item w s raw st) as [[[]|e] st1]; [by apply IH|by exists e].
  - rewrite (process_item_raise w s raw e st Hn). by exists e.
Qed.

Lemma adapter_fails_raises w s st :
  adapter_fails w s = true → ∃ e, fst (check_source w s st) = Raise e.
Proof.
  unfold adapter_fails, check_source. run_m.
  destruct (get_announcements s w) as [out [raws|e]]; simpl; [|by exists e].
  intros H. apply items_fail. exact H.
Qed.

(** * The properties *)

(** Claim C1 fails as stated: with Weixin, Tencent and Yeepay registered
    in this order and the monitor in its steady state, a cycle in which the
    Weixin fetch raises ends in the handler before Tencent is fetched.  The
    new Tencent announcement B is neither notified nor added to the ledger
    and nothing is printed for Tencent, while the same cycle with Weixin
    reachable notifies B. *)
Lemma adapter_failure_skips_later_adapters :
  let w := weixin_down [rowB] in
  let st' := snd (check_updates w st_main) in
  is_first_run st_main = false
  ∧ adapter_fails w weixin = true
  ∧ snd (get_announcements TencentCloud.Source w) = Ok [itemB]
  ∧ TencentCloud.format_notification itemB = Ok annB
  ∧ (item_key annB ∉ last_items st_main)
  ∧ posted st' = posted st_main
  ∧ (item_key annB ∉ last_items st')
  ∧ stdout st' = (stdout st_main ++ [LogCheckError ConnectionError])%list
  ∧ map fst (posted (snd (check_updates (weixin_up [rowB]) st_main))) = [annB].
Proof.
  repeat split; try reflexivity; by_computation.
Qed.

(** Claim C1, as amended: when an adapter's [get_announcements], or the
    normalization of one of its items, raises during a poll cycle, the
    exception is caught by the one handler of [check_updates] and printed;
    the cycle ends there, in the state reached when the exception was
    raised (the adapters registered after the failing one are neither
    fetched nor evaluated in that cycle), [is_first_run] is as before the
    cycle, and the poll loop continues. *)
Theorem adapter_failure_aborts_cycle (w : World) (st st1 : Monitor)
    (pre post : list AnnouncementSource) (s : AnnouncementSource) :
  sources st = (pre ++ s :: post)%list →
  for_each pre (check_source w) st = (Ok tt, st1) →
  adapter_fails w s = true →
  ∃ e, fst (check_source w s st1) = Raise e
       ∧ check_updates w st
         = (Ok tt, emit [LogCheckError e] (snd (check_source w s st1)))
       ∧ is_first_run (snd (check_updates w st)) = is_first_run st
       ∧ ∀ ws, fst (poll (w :: ws) st) = Ok tt.
Proof.
  intros Hs Hpre Hfail.
  destruct (adapter_fails_raises w s st1 Hfail) as [e He]. exists e.
  assert (check_updates w st
          = (Ok tt, emit [LogCheckError e] (snd (check_source w s st1)))) as Hc.
  { unfold check_updates, check_updates_body, try_except, bind at 1, gets.
    rewrite Hs. unfold bind at 1. rewrite for_each_app. unfold bind at 1.
    rewrite Hpre, for_each_cons.
    destruct (check_source w s st1) as [r st2]. simpl in *. by subst r. }
  split; [done|]. split; [done|]. split; [|intros ws; apply poll_ok].
  rewrite Hc. simpl. rewrite check_source_steps, steps_same_first_run.
  rewrite cycle_schedule in Hpre.
  pose proof (steps_same_first_run w (schedule w pre) st) as H.
  by rewrite Hpre in H.
Qed.

Lemma adapter_failure_aborts_cycle_witness :
  ∃ e, fst (check_source (weixin_down [rowB]) weixin st_main) = Raise e
       ∧ check_updates (weixin_down [rowB]) st_main
         = (Ok tt, emit [LogCheckError e]
                     (snd (check_source (weixin_down [rowB]) weixin st_main)))
       ∧ is_first_run (snd (check_updates (weixin_down [rowB]) st_main))
         = is_first_run st_main
       ∧ ∀ ws, fst (poll (weixin_down [rowB] :: ws) st_main) = Ok tt.
Proof.
  apply (adapter_failure_aborts_cycle (weixin_down [rowB]) st_main st_main
           [] [TencentCloud.Source; Yeepay.Source] weixin); reflexivity.
Defined.

(** Claim C4: in normal mode, the first cycle of a fresh monitor in which
    the adapters return [N] announcements of pairwise distinct keys makes
    no notification, leaves exactly [N] keys in the ledger, and ends the
    first run. *)
Theorem first_cycle_builds_baseline (w : World) (st : Monitor)
    (anns : list Announcement) :
  is_first_run st = true → debug_time st = None →
  last_items st = ∅ → posted st = [] →
  cycle_announcements w (sources st) = Ok anns →
  NoDup (map item_key anns) →
  let st' := snd (check_updates w st) in
  length (posted st') = 0%nat
  ∧ size (last_items st') = length anns
  ∧ is_first_run st' = false.
Proof.
  intros Hf Hd Hl Hp Ha Hnd. simpl. rewrite check_updates_steps.
  rewrite <- cycle_announcements_steps in Ha.
  destruct (steps_baseline w _ st anns Hf Hd Ha) as (st1 & -> & Hf1 & Hp1 & Hl1).
  unfold end_of_cycle. rewrite Hf1. simpl.
  rewrite Hp1, Hp, Hl1, Hl, (right_id_L ∅ (∪)).
  rewrite size_list_to_set by done. by rewrite length_map.
Qed.

Lemma first_cycle_builds_baseline_witness :
  let st' := snd (check_updates w_AB m_tencent) in
  length (posted st') = 0%nat ∧ size (last_items st') = 2%nat
  ∧ is_first_run st' = false.
Proof.
  apply (first_cycle_builds_baseline w_AB m_tencent [annA; annB]);
    solve [reflexivity | by_computation].
Defined.

(** Claim C5 fails as stated: in normal mode and steady state, with A in
    the ledger, a cycle that returns A and the new B while the webhook is
    unreachable makes its one POST, for B, and [requests.post] raises; the
    exception leaves [send_notification] before the key of B is added, so
    the ledger does not grow, and the next cycle POSTs B again. *)
Lemma raised_post_leaves_ledger_as_it_is :
  let st' := snd (check_updates w_AB_down st_A) in
  is_first_run st_A = false ∧ debug_time st_A = None
  ∧ cycle_announcements w_AB_down (sources st_A) = Ok [annA; annB]
  ∧ item_key annA ∈ last_items st_A
  ∧ (item_key annB ∉ last_items st_A)
  ∧ map fst (posted st') = [annB]
  ∧ size (last_items st') = size (last_items st_A)
  ∧ map fst (posted (snd (check_updates w_AB_down st'))) = [annB; annB].
Proof. repeat split; try reflexivity; by_computation. Qed.

(** Claim C5, as amended: in normal mode and steady state, a cycle whose
    adapters return announcements already in the ledger and exactly one,
    [a], whose key is not, makes exactly one POST, which carries [a]; and
    when the webhook answers that POST, with whatever status, the ledger
    grows by exactly the key of [a]. *)
Theorem one_new_item_one_notification (w : World) (st : Monitor)
    (l1 l2 : list Announcement) (a : Announcement) :
  is_first_run st = false → debug_time st = None →
  cycle_announcements w (sources st) = Ok (l1 ++ a :: l2)%list →
  Forall (λ b, item_key b ∈ last_items st) (l1 ++ l2) →
  item_key a ∉ last_items st →
  let st' := snd (check_updates w st) in
  posted st' = (posted st ++ [(a, message_content (now w) a)])%list
  ∧ ∀ resp,
      requests_post w (length (posted st)) (message_content (now w) a)
      = Ok resp →
      last_items st' = {[item_key a]} ∪ last_items st
      ∧ size (last_items st') = S (size (last_items st)).
Proof.
  intros Hf Hd Ha Hseen Hk. simpl. rewrite check_updates_steps.
  rewrite <- cycle_announcements_steps in Ha.
  assert (eligible st a) as He.
  { apply steps_dates in Ha. rewrite Forall_app, Forall_cons in Ha.
    destruct Ha as (_ & (d & Hdate) & _). exists d. split; [done|].
    intros c. by rewrite Hd. }
  pose proof (steps_evolves w (schedule w (sources st)) st) as (_ & _ & Hf1 & _).
  destruct (requests_post w (length (posted st)) (message_content (now w) a))
    as [resp|e] eqn:Hpost.
  - destruct (steps_one_new w _ st l1 a l2 resp Hf Ha Hseen He Hk Hpost)
      as (st1 & Hr & Hp1 & Hl1).
    rewrite Hr in Hf1 |- *. simpl in Hf1 |- *. rewrite (Hf1 Hf). simpl.
    split; [done|]. intros _ _. split; [done|]. rewrite Hl1.
    rewrite size_union by (apply disjoint_singleton_l; done).
    by rewrite size_singleton.
  - apply Forall_app in Hseen as [Hseen _].
    destruct (steps_one_new_raised w _ st l1 a l2 e Hf Ha Hseen He Hk Hpost)
      as (st1 & Hr & Hp1 & Hl1).
    rewrite Hr. simpl. split; [done|]. intros resp [=].
Qed.

Lemma one_new_item_one_notification_witness :
  let st' := snd (check_updates w_AB st_A) in
  posted st' = (posted st_A ++ [(annB, message_content (now w_AB) annB)])%list
  ∧ last_items st' = {[item_key annB]} ∪ last_items st_A
  ∧ size (last_items st') = S (size (last_items st_A)).
Proof.
  destruct (one_new_item_one_notification w_AB st_A [annA] [] annB)
    as [Hp Hl]; try solve [reflexivity | by_computation].
  split; [exact Hp|]. apply (Hl webhook_ok). reflexivity.
Defined.

(** Claim C6: in steady state, a cycle in which the key of every item
    is already in the ledger makes no notification and leaves the ledger as
    it is; in either mode, and whether or not the cycle ends in the
    handler. *)
Theorem redelivery_is_silent (w : World) (st : Monitor) :
  is_first_run st = false →
  every_key_seen w st = true →
  let st' := snd (check_updates w st) in
  posted st' = posted st ∧ last_items st' = last_items st.
Proof.
  intros Hf Hseen. simpl. rewrite check_updates_steps.
  destruct (steps_silent w (schedule w (sources st)) st Hf) as (Hf' & Hp & Hl).
  { by apply schedule_seen. }
  unfold end_of_cycle. destruct (for_each _ _ st) as [[[]|e] st1]; simpl in *.
  - by rewrite Hf'.
  - done.
Qed.

Lemma redelivery_is_silent_witness :
  let st' := snd (check_updates w_A st_A) in
  posted st' = posted st_A ∧ last_items st' = last_items st_A.
Proof.
  apply (redelivery_is_silent w_A st_A); vm_compute; reflexivity.
Defined.




(** Claim C8: when the POST for a newly detected announcement is answered
    with a status that is not 2xx, [process_item] returns without an
    exception, has made that one POST, has printed the failure last, and
    has added the key to the ledger; no later item of the cycle and no later
    cycle notifies that key again, and the poll loop goes on. *)
Theorem failed_delivery_is_swallowed (w : World) (s : AnnouncementSource)
    (raw : raw_item s) (a : Announcement) (d : date) (st : Monitor)
    (resp : Response) :
  normalize s raw = Ok (a, d) →
  is_first_run st = false → eligible st a → item_key a ∉ last_items st →
  requests_post w (length (posted st)) (message_content (now w) a) = Ok resp →
  (status_code resp < 200 ∨ 300 ≤ status_code resp) →
  let r := process_item w s raw st in
  fst r = Ok tt
  ∧ posted (snd r) = (posted st ++ [(a, message_content (now w) a)])%list
  ∧ List.last (stdout (snd r)) (LogStarted "") = LogSendFailed (text resp)
  ∧ item_key a ∈ last_items (snd r)
  ∧ (∀ s', notified (item_key a) (posted (snd (check_source w s' (snd r))))
           = notified (item_key a) (posted (snd r)))
  ∧ (∀ ws, fst (poll ws (snd r)) = Ok tt
           ∧ notified (item_key a) (posted (snd (poll ws (snd r))))
             = notified (item_key a) (posted (snd r))).
Proof.
  intros Hn Hf He Hk Hpost Hstatus.
  pose proof (normalize_date _ _ _ _ Hn) as Hdate.
  pose proof (process_item_spec w s raw a d st Hn) as [_ H]. simpl in H.
  rewrite (action_notify st a d) in H by done. rewrite Hpost in H.
  destruct H as (Hp & Hr & Hl). simpl.
  assert (item_key a ∈ last_items (snd (process_item w s raw st))) as Hin.
  { rewrite Hl. apply elem_of_union_l. by apply elem_of_singleton. }
  split; [done|]. split; [done|]. split; [|split; [done|split]].
  - clear Hp Hr Hl Hin. revert Hn. unfold normalize, process_item, send_notification.
    run_m. destruct (format_notification s raw) as [a'|]; simpl; [|done].
    destruct (strptime (date_ a')) as [d'|]; simpl; [|done]. intros [= -> ->].
    assert ((status_code resp =? 200) = false) as Hs by lia.
    destruct He as (d' & Hd' & Hc). rewrite Hdate in Hd'. injection Hd' as <-.
    rewrite Hf. rewrite bool_decide_eq_false_2 by done.
    destruct (debug_time st) as [c|] eqn:E; simpl.
    + rewrite (Hc c eq_refl). simpl. rewrite Hpost. simpl. rewrite Hs. simpl.
      by rewrite !last_last.
    + rewrite Hpost. simpl. rewrite Hs. simpl. by rewrite !last_last.
  - intros s'. rewrite check_source_steps.
    by apply seen_never_notified; [apply steps_evolves|].
  - intros ws. split; [apply poll_ok|].
    by apply seen_never_notified; [apply poll_evolves|].
Qed.

Lemma failed_delivery_is_swallowed_witness :
  let r := process_item w_AB_500 TencentCloud.Source itemB st_A in
  fst r = Ok tt
  ∧ posted (snd r)
    = (posted st_A ++ [(annB, message_content (now w_AB_500) annB)])%list
  ∧ List.last (stdout (snd r)) (LogStarted EmptyString)
    = LogSendFailed (text webhook_500)
  ∧ item_key annB ∈ last_items (snd r)
  ∧ (∀ s', notified (item_key annB)
             (posted (snd (check_source w_AB_500 s' (snd r))))
           = notified (item_key annB) (posted (snd r)))
  ∧ (∀ ws, fst (poll ws (snd r)) = Ok tt
           ∧ notified (item_key annB) (posted (snd (poll ws (snd r))))
             = notified (item_key annB) (posted (snd r))).
Proof.
  apply (failed_delivery_is_swallowed w_AB_500 TencentCloud.Source itemB annB
           (Date 2025 1 2) st_A webhook_500).
  - reflexivity.
  - reflexivity.
  - exists (Date 2025 1 2). split; [reflexivity|]. intros c Hc. discriminate Hc.
  - by_computation.
  - reflexivity.
  - right. vm_compute. discriminate.
Defined.



(** * Further properties of the code *)

Lemma chars_str l : Py.chars (Py.str l) = l.
Proof. apply list_ascii_of_string_of_list_ascii. Qed.

Lemma split_on_fields c l : Forall (λ f, c ∉ f) (Py.split_on c l).
Proof.
  induction l as [|a l IH]; simpl.
  - constructor; [apply not_elem_of_nil|constructor].
  - case_decide; subst.
    + constructor; [apply not_elem_of_nil|done].
    + destruct (Py.split_on c l) as [|f fs].
      * constructor; [|constructor]. by intros ->%list_elem_of_singleton.
      * apply Forall_cons in IH as [Hf Hfs]. constructor; [|done].
        by intros [->|?]%elem_of_cons.
Qed.

Lemma Forall_last_default {A} (P : A → Prop) l d :
  Forall P l → P d → P (List.last l d).
Proof.
  induction 1 as [|x l Hx Hl IH]; intros Hd; simpl; [done|].
  destruct l; [done|]. by apply IH.
Qed.

Lemma last_field_no_sep c s : c ∉ Py.chars (Py.last_field c s).
Proof.
  unfold Py.last_field. rewrite chars_str.
  apply (Forall_last_default (λ f, c ∉ f)); [apply split_on_fields|].
  apply not_elem_of_nil.
Qed.

Lemma space_len_app u l :
  Py.space_len (u ++ l) = 0%nat → Py.space_len u = 0%nat.
Proof.
  destruct u as [|a [|b [|c u]]]; simpl; [done|..].
  - destruct l as [|b [|c l]]; simpl; destruct (Py.is_space a); try done.
  - destruct l as [|c l]; simpl; destruct (Py.is_space a); try done;
      destruct (Py.is_space2 a b); done.
  - done.
Qed.

Lemma clean_run_nil l : clean_run [] l.
Proof. intros u1 u2 H Hne. by destruct u1, u2. Qed.

Lemma clean_run_snoc t c l :
  clean_run t (c :: l) → Py.space_len (c :: l) = 0%nat →
  clean_run (t ++ [c]) l.
Proof.
  intros Ht Hc u1 u2 Heq Hne.
  destruct (decide (u2 = [c])) as [->|Hu]; [done|].
  assert (∃ u2', u2 = (u2' ++ [c])%list ∧ t = (u1 ++ u2')%list ∧ u2' ≠ [])
    as (u2' & -> & -> & Hne').
  { destruct u2 as [|x u2 _] using rev_ind; [done|].
    rewrite app_assoc in Heq. apply app_inj_tail in Heq as [-> ->].
    exists u2. repeat split; try done. by intros ->. }
  rewrite <- app_assoc. simpl. by apply (Ht u1 u2').
Qed.

Lemma clean_run_no_ws t l : clean_run t l → no_ws t = true.
Proof.
  induction t as [|c t IH]; intros Ht; simpl; [done|].
  apply andb_true_intro. split.
  - apply Nat.eqb_eq. apply (space_len_app (c :: t) l).
    by apply (Ht [] (c :: t)).
  - apply IH. intros u1 u2 -> Hne. by apply (Ht (c :: u1) u2).
Qed.

Lemma run_is_word cur l :
  cur ≠ [] → clean_run (rev cur) l →
  Py.str (rev cur) ≠ EmptyString ∧ no_space (Py.str (rev cur)).
Proof.
  intros Hne Hc. unfold no_space. rewrite chars_str. split.
  - intros H. apply (f_equal Py.chars) in H. rewrite chars_str in H.
    apply Hne. destruct cur as [|c cur]; [done|]. simpl in H.
    by destruct (rev cur).
  - by eapply clean_run_no_ws.
Qed.

Lemma split_go_words l : ∀ skip cur,
  (skip ≠ 0%nat → cur = []) →
  (skip = 0%nat → clean_run (rev cur) l) →
  Forall (λ s, s ≠ EmptyString ∧ no_space s) (Py.split_go skip cur l).
Proof.
  induction l as [|c l IH]; intros skip cur Hskip Hcur; cbn [Py.split_go].
  - destruct cur as [|a cur]; [constructor|]. constructor; [|constructor].
    apply (run_is_word (a :: cur) []); [done|].
    apply Hcur. by destruct skip; [|specialize (Hskip ltac:(done))].
  - destruct skip as [|k].
    + specialize (Hcur eq_refl).
      destruct (Py.space_len (c :: l)) as [|k] eqn:Hlen.
      * apply IH; [done|]. intros _. simpl. by apply clean_run_snoc.
      * destruct cur as [|a cur].
        -- apply IH; [done|]. intros _. apply clean_run_nil.
        -- constructor; [by apply (run_is_word (a :: cur) (c :: l))|].
           apply IH; [done|]. intros _. apply clean_run_nil.
    + rewrite (Hskip ltac:(done)). apply IH; [done|]. intros _.
      apply clean_run_nil.
Qed.

Lemma split_words s :
  Forall (λ t, t ≠ EmptyString ∧ no_space t) (Py.split s).
Proof. apply split_go_words; [done|]. intros _. apply clean_run_nil. Qed.

(** X1: [TencentCloudSource.get_announcements] returns a list in every
    world, and the empty list when the request raises, is answered with a
    status other than 200, or the page cannot be searched. *)
Theorem tencent_fetch_never_raises (w : World) :
  ∃ l, snd (TencentCloud.get_announcements w) = Ok l
       ∧ (match requests_get w TencentCloud.url_ ∅ with
          | Ok r => status_code r ≠ 200
                    ∨ is_ok (select r ".msg-list-bd .msg-list-item") = false
          | Raise _ => True
          end → l = []).
Proof.
  unfold TencentCloud.get_announcements.
  destruct (requests_get w _ _) as [r|e]; [|by exists []].
  destruct (status_code r =? 200) eqn:Hs; simpl; [|by exists []].
  destruct (select r _) as [ns|e]; [|by exists []].
  destruct (TencentCloud.parse_items ns) as [out l]. exists l.
  split; [done|]. intros [H|H]; [lia|done].
Qed.

(** X2: [YeepaySource.get_announcements] returns a list in every world,
    and the empty list when the request raises, is answered with a status
    other than 200, or the page cannot be searched. *)
Theorem yeepay_fetch_never_raises (w : World) :
  ∃ l, snd (Yeepay.get_announcements w) = Ok l
       ∧ (match requests_get w Yeepay.url_ ∅ with
          | Ok r => status_code r ≠ 200
                    ∨ is_ok (select r ".ant-table-tbody tr") = false
          | Raise _ => True
          end → l = []).
Proof.
  unfold Yeepay.get_announcements.
  destruct (requests_get w _ _) as [r|e]; [|by exists []].
  destruct (status_code r =? 200) eqn:Hs; simpl; [|by exists []].
  destruct (select r _) as [ns|e]; [|by exists []].
  destruct (Yeepay.parse_items ns) as [out l]. exists l.
  split; [done|]. intros [H|H]; [lia|done].
Qed.

Lemma tencent_parse_items_app ns1 ns2 :
  TencentCloud.parse_items (ns1 ++ ns2)
  = ((fst (TencentCloud.parse_items ns1) ++ fst (TencentCloud.parse_items ns2))%list,
     (snd (TencentCloud.parse_items ns1) ++ snd (TencentCloud.parse_items ns2))%list).
Proof.
  induction ns1 as [|n ns1 IH]; simpl.
  - by destruct (TencentCloud.parse_items ns2).
  - rewrite IH. destruct (TencentCloud.parse_items ns1) as [o1 l1].
    destruct (TencentCloud.parse_items ns2) as [o2 l2]. simpl.
    by destruct (TencentCloud.parse_item n) as [[it|]|e].
Qed.

(** X3: a list item on which the inner [try] of
    [TencentCloudSource.get_announcements] raises is skipped with one
    printed line; the items before and after it are returned as if it were
    not there. *)
Theorem tencent_bad_item_is_skipped (ns1 ns2 : list Node) (n : Node) (e : exn) :
  TencentCloud.parse_item n = Raise e →
  TencentCloud.parse_items (ns1 ++ n :: ns2)
  = ((fst (TencentCloud.parse_items ns1)
      ++ LogParseItem e :: fst (TencentCloud.parse_items ns2))%list,
     (snd (TencentCloud.parse_items ns1)
      ++ snd (TencentCloud.parse_items ns2))%list).
Proof.
  intros Hn. rewrite tencent_parse_items_app. simpl. rewrite Hn.
  by destruct (TencentCloud.parse_items ns2).
Qed.

Lemma tencent_parse_items_Forall (P : TencentCloud.item → Prop) ns :
  (∀ n it, TencentCloud.parse_item n = Ok (Some it) → P it) →
  Forall P (snd (TencentCloud.parse_items ns)).
Proof.
  intros HP. induction ns as [|n ns IH]; simpl; [constructor|].
  destruct (TencentCloud.parse_items ns) as [out l]. simpl in *.
  destruct (TencentCloud.parse_item n) as [[it|]|e] eqn:Hn; simpl; try done.
  constructor; [by eapply HP|done].
Qed.

Lemma yeepay_parse_items_Forall (P : Yeepay.item → Prop) ns :
  (∀ n it, Yeepay.parse_item n = Ok (Some it) → P it) →
  Forall P (snd (Yeepay.parse_items ns)).
Proof.
  intros HP. induction ns as [|n ns IH]; simpl; [constructor|].
  destruct (Yeepay.parse_items ns) as [out l]. simpl in *.
  destruct (Yeepay.parse_item n) as [[it|]|e] eqn:Hn; simpl; try done.
  constructor; [by eapply HP|done].
Qed.

(** X4: the [announceId] of every item [TencentCloudSource] returns, and
    the [noticeId] of every item [YeepaySource] returns, holds no ["/"]:
    it is what follows the last ["/"] of the link. *)
Theorem scraped_ids_have_no_slash (w : World) :
  (∀ l, snd (TencentCloud.get_announcements w) = Ok l →
        Forall (λ it, "/"%char ∉ Py.chars (TencentCloud.announceId it)) l)
  ∧ (∀ l, snd (Yeepay.get_announcements w) = Ok l →
          Forall (λ it, "/"%char ∉ Py.chars (Yeepay.noticeId it)) l).
Proof.
  split.
  - unfold TencentCloud.get_announcements. intros l.
    destruct (requests_get w _ _) as [r|e]; [|intros [= <-]; constructor].
    destruct (negb _); [intros [= <-]; constructor|].
    destruct (select r _) as [ns|e]; [|intros [= <-]; constructor].
    pose proof (tencent_parse_items_Forall
                  (λ it, "/"%char ∉ Py.chars (TencentCloud.announceId it)) ns) as H.
    destruct (TencentCloud.parse_items ns) as [out l']. simpl.
    intros [= <-]. apply H. clear. intros n it. unfold TencentCloud.parse_item.
    destruct (select_one n _) as [[link|]|]; simpl; try done;
      destruct (select_one n _) as [[span|]|]; simpl; try done.
    destruct (TencentCloud.attr link "href"); simpl; [|done].
    intros [= <-]. simpl. apply last_field_no_sep.
  - unfold Yeepay.get_announcements. intros l.
    destruct (requests_get w _ _) as [r|e]; [|intros [= <-]; constructor].
    destruct (negb _); [intros [= <-]; constructor|].
    destruct (select r _) as [ns|e]; [|intros [= <-]; constructor].
    pose proof (yeepay_parse_items_Forall
                  (λ it, "/"%char ∉ Py.chars (Yeepay.noticeId it)) ns) as H.
    destruct (Yeepay.parse_items ns) as [out l']. simpl.
    intros [= <-]. apply H. clear. intros n it. unfold Yeepay.parse_item.
    destruct (select_one n _) as [[link|]|]; simpl; try done;
      destruct (select_one n _) as [[span|]|]; simpl; try done.
    destruct (TencentCloud.attr link "href"); simpl; [|done].
    intros [= <-]. simpl. apply last_field_no_sep.
Qed.

(** With white space that is not ASCII: a published-time text that is one
    ideographic space (U+3000) splits into no field, and a no-break space
    (U+00A0) separates the date from the time. *)
Lemma tencent_format_unicode_space :
  TencentCloud.format_notification
    {| TencentCloud.title_ := "C"; TencentCloud.announceId := "5";
       TencentCloud.beginTime := "　" |} = Raise IndexError
  ∧ Py.split "2025-01-02 10:00:00" = ["2025-01-02"; "10:00:00"].
Proof. split; reflexivity. Qed.

(** X5: [TencentCloudSource.format_notification] returns exactly when
    [item['beginTime'].split()] is not empty, that is when the
    published-time text has a field; the date it returns is then not
    empty, date and time hold no white space, and the time is empty exactly
    when the text has one field. *)
Theorem tencent_format_notification_spec (it : TencentCloud.item) :
  (is_ok (TencentCloud.format_notification it) = true
   ↔ Py.split (TencentCloud.beginTime it) ≠ [])
  ∧ ∀ a, TencentCloud.format_notification it = Ok a →
         title a = TencentCloud.title_ it
         ∧ date_ a ≠ EmptyString ∧ no_space (date_ a) ∧ no_space (time a)
         ∧ (time a = EmptyString
            ↔ length (Py.split (TencentCloud.beginTime it)) = 1%nat).
Proof.
  unfold TencentCloud.format_notification.
  pose proof (split_words (TencentCloud.beginTime it)) as Hw.
  destruct (Py.split (TencentCloud.beginTime it)) as [|d [|t l]]; simpl.
  - split; [done|]. intros a [=].
  - split; [done|]. intros a [= <-]. simpl.
    apply Forall_cons in Hw as [[? ?] _]. repeat split; done.
  - split; [done|]. intros a [= <-]. simpl.
    apply Forall_cons in Hw as [[? ?] [[? ?] _]%Forall_cons].
    repeat split; try done.
Qed.

(** X6: the same for [YeepaySource.format_notification]. *)
Theorem yeepay_format_notification_spec (it : Yeepay.item) :
  (is_ok (Yeepay.format_notification it) = true
   ↔ Py.split (Yeepay.pubTime it) ≠ [])
  ∧ ∀ a, Yeepay.format_notification it = Ok a →
         title a = Yeepay.title_ it
         ∧ date_ a ≠ EmptyString ∧ no_space (date_ a) ∧ no_space (time a)
         ∧ (time a = EmptyString
            ↔ length (Py.split (Yeepay.pubTime it)) = 1%nat).
Proof.
  unfold Yeepay.format_notification.
  pose proof (split_words (Yeepay.pubTime it)) as Hw.
  destruct (Py.split (Yeepay.pubTime it)) as [|d [|t l]]; simpl.
  - split; [done|]. intros a [=].
  - split; [done|]. intros a [= <-]. simpl.
    apply Forall_cons in Hw as [[? ?] _]. repeat split; done.
  - split; [done|]. intros a [= <-]. simpl.
    apply Forall_cons in Hw as [[? ?] [[? ?] _]%Forall_cons].
    repeat split; try done.
Qed.

Lemma tencent_source it a :
  TencentCloud.format_notification it = Ok a → source a = "腾讯云".
Proof.
  unfold TencentCloud.format_notification.
  destruct (Py.index _ 0); simpl; [|done].
  destruct (if decide _ then _ else _); simpl; [|done]. by intros [= <-].
Qed.

Lemma yeepay_source it a :
  Yeepay.format_notification it = Ok a → source a = "易宝支付".
Proof.
  unfold Yeepay.format_notification.
  destruct (Py.index _ 0); simpl; [|done].
  destruct (if decide _ then _ else _); simpl; [|done]. by intros [= <-].
Qed.

Lemma weixin_source f r j a :
  WeixinPay.format_notification f r j = Ok a → source a = "微信支付".
Proof.
  unfold WeixinPay.format_notification.
  destruct (json_item j "contentPublishTime"); simpl; [|done].
  destruct (WeixinPay.timestamp f _); simpl; [|done].
  destruct (json_item j "contentTitle"); simpl; [|done].
  destruct (json_item j "contentId"); simpl; [|done]. by intros [= <-].
Qed.

Lemma keys_differ_by_source a b :
  no_sep (source a) → no_sep (source b) → source a ≠ source b →
  item_key a ≠ item_key b.
Proof.
  intros Ha Hb Hne H. apply (f_equal Py.chars) in H.
  rewrite !item_key_chars in H.
  apply first_field_unique in H as [Hs _]; [|done..].
  by apply chars_inj in Hs.
Qed.

(** X7: announcements normalized by two different adapters never have
    the same identity key, whatever their titles and dates. *)
Theorem adapters_never_share_a_key
    (fromtimestamp : Z → result (string * string)) (render : json → string)
    (j : json) (t : TencentCloud.item) (y : Yeepay.item)
    (a b c : Announcement) :
  WeixinPay.format_notification fromtimestamp render j = Ok a →
  TencentCloud.format_notification t = Ok b →
  Yeepay.format_notification y = Ok c →
  item_key a ≠ item_key b ∧ item_key a ≠ item_key c
  ∧ item_key b ≠ item_key c.
Proof.
  intros Ha%weixin_source Hb%tencent_source Hc%yeepay_source.
  repeat split; apply keys_differ_by_source; rewrite ?Ha, ?Hb, ?Hc;
    solve [unfold no_sep; by_computation | discriminate].
Qed.

Lemma extend_from_contents items r l :
  lists_contents r l → WeixinPay.extend_from items r = Ok (items ++ l)%list.
Proof.
  intros (Hs & data & code & d & Hb & Hc & Hz & Hd & Hl).
  unfold WeixinPay.extend_from. rewrite Hs, Hb. simpl. rewrite Hc. simpl.
  rewrite Hz, Hd. simpl. by rewrite Hl.
Qed.

(** X8: when both requests of [WeixinPaySource.get_announcements] succeed,
    it returns the items of the normal list followed by those of the pinned
    list, and prints nothing. *)
Theorem weixin_merges_both_lists (w : World) (r1 r2 : Response)
    (l1 l2 : list json) :
  requests_get w WeixinPay.base_url WeixinPay.params1 = Ok r1 →
  requests_get w WeixinPay.base_url WeixinPay.params2 = Ok r2 →
  lists_contents r1 l1 → lists_contents r2 l2 →
  WeixinPay.get_announcements w = ([], Ok (l1 ++ l2)%list).
Proof.
  intros H1 H2 Hl1 Hl2. unfold WeixinPay.get_announcements.
  rewrite H1, H2. simpl. rewrite (extend_from_contents [] r1 l1 Hl1). simpl.
  by rewrite (extend_from_contents l1 r2 l2 Hl2).
Qed.

(** X9: an answer of the Weixin API whose JSON object has an [errorcode]
    other than 0, or none, adds no item and raises nothing, whatever its
    status and whatever else it holds. *)
Theorem weixin_error_code_contributes_nothing (items : list json)
    (r : Response) (kv : list (string * json)) :
  json_body r = Ok (JObj kv) →
  json_is_zero (default JNull (assoc "errorcode" kv)) = false →
  WeixinPay.extend_from items r = Ok items.
Proof.
  intros Hb Hz. unfold WeixinPay.extend_from.
  destruct (status_code r =? 200); [|done]. rewrite Hb. simpl. by rewrite Hz.
Qed.

(** X10: [WeixinPaySource.format_notification] returns exactly on a JSON
    object that has the three keys [contentPublishTime], [contentTitle] and
    [contentId] and whose publish time is a number that [fromtimestamp]
    accepts; on anything else it raises. *)
Theorem weixin_format_notification_ok
    (fromtimestamp : Z → result (string * string)) (render : json → string)
    (item : json) :
  is_ok (WeixinPay.format_notification fromtimestamp render item) = true
  ↔ ∃ kv t,
      item = JObj kv
      ∧ assoc "contentPublishTime" kv = Some t
      ∧ is_ok (WeixinPay.timestamp fromtimestamp t) = true
      ∧ is_Some (assoc "contentTitle" kv)
      ∧ is_Some (assoc "contentId" kv).
Proof.
  unfold WeixinPay.format_notification. split.
  - destruct item as [| | | |l|kv]; simpl; try done.
    destruct (assoc "contentPublishTime" kv) as [t|] eqn:Ht; simpl; [|done].
    destruct (WeixinPay.timestamp fromtimestamp t) eqn:Hts; simpl; [|done].
    destruct (assoc "contentTitle" kv) eqn:Hti; simpl; [|done].
    destruct (assoc "contentId" kv) eqn:Hid; simpl; [|done].
    intros _. exists kv, t. rewrite Hts. repeat split; eauto.
  - intros (kv & t & -> & Ht & Hts & [ti Hti] & [id Hid]). simpl.
    rewrite Ht. simpl. destruct (WeixinPay.timestamp fromtimestamp t); [|done].
    simpl. rewrite Hti. simpl. by rewrite Hid.
Qed.

(** X11: [run] never raises, for any number of cycles in any worlds: no
    failure of an adapter or of the webhook ends the loop. *)
Theorem run_never_raises (startup_time : string) (ws : list World)
    (st : Monitor) :
  fst (run startup_time ws st) = Ok tt.
Proof. unfold run. run_m. apply poll_ok. Qed.

(** X12: over any number of cycles the registered sources and the debug
    cutoff stay as they are, the ledger only grows, the POSTs made are
    only added to, and the steady state is never left. *)
Theorem run_is_monotone (ws : list World) (st : Monitor) :
  let st' := snd (poll ws st) in
  sources st' = sources st
  ∧ debug_time st' = debug_time st
  ∧ last_items st ⊆ last_items st'
  ∧ (∃ new, posted st' = (posted st ++ new)%list)
  ∧ (is_first_run st = false → is_first_run st' = false).
Proof.
  destruct (poll_evolves ws st) as (Hs & Hd & Hf & Hl & new & Hp & _).
  repeat split; try done. by exists new.
Qed.

Lemma notified_here w a k :
  item_key a = k → notified k [post_of w a] = 1%nat.
Proof. intros H. unfold notified. by rewrite filter_cons_True. Qed.

Lemma do_step_at_most_once w k n0 x st :
  webhook_responds w → at_most_once k n0 st →
  at_most_once k n0 (snd (do_step w x st)).
Proof.
  intros Hw [[Hk Hn]|[Hk Hn]]; unfold at_most_once.
  - destruct x as [out|e|s raw]; simpl; [by left..|].
    destruct (normalize s raw) as [[a d]|e] eqn:Hnorm.
    + pose proof (process_item_spec w s raw a d st Hnorm) as [_ H]. simpl in H.
      destruct (decide_action st a d).
      * destruct H as (_ & Hl & Hp). left. by rewrite Hl, Hp.
      * destruct H as (_ & Hl & Hp). rewrite Hl, Hp.
        destruct (decide (item_key a = k)) as [<-|Hne].
        -- right. split; [apply elem_of_union_l; by apply elem_of_singleton|lia].
        -- left. split; [|done].
           intros [?%elem_of_singleton|?]%elem_of_union; congruence.
      * destruct H as [Hp H].
        pose proof (Hw (length (posted st)) (message_content (now w) a)) as Hr.
        destruct (requests_post _ _ _); [|done]. destruct H as [_ Hl].
        rewrite Hl, Hp, notified_app.
        destruct (decide (item_key a = k)) as [<-|Hne].
        -- right. split; [apply elem_of_union_l; by apply elem_of_singleton|].
           rewrite notified_here by done. lia.
        -- left. split.
           ++ intros [?%elem_of_singleton|?]%elem_of_union; congruence.
           ++ rewrite (notified_other k [post_of w a]); [lia|].
              by constructor.
    + rewrite (process_item_raise w s raw e st Hnorm). by left.
  - destruct (seen_never_notified st (snd (do_step w x st)) k) as [-> ?];
      [apply do_step_evolves|done|]. by right.
Qed.

Lemma check_updates_at_most_once w k n0 st :
  webhook_responds w → at_most_once k n0 st →
  at_most_once k n0 (snd (check_updates w st)).
Proof.
  intros Hw H0. rewrite check_updates_steps.
  pose proof (for_each_inv (at_most_once k n0) (do_step w)
                (schedule w (sources st))) as H.
  specialize (H (λ x st1 _, do_step_at_most_once w k n0 x st1 Hw) st H0).
  unfold end_of_cycle. destruct (for_each _ _ st) as [[[]|e] st1]; simpl in *.
  - by destruct (is_first_run st1).
  - done.
Qed.

(** X13: as long as the webhook answers, no identity key is notified more
    than once over any number of cycles; a key already in the ledger is not
    notified at all, and a key that was notified is in the ledger. *)
Theorem no_key_is_notified_twice (ws : list World) (st : Monitor)
    (k : string) :
  Forall webhook_responds ws →
  let st' := snd (poll ws st) in
  (notified k (posted st') ≤ S (notified k (posted st)))%nat
  ∧ (k ∈ last_items st → notified k (posted st') = notified k (posted st))
  ∧ (notified k (posted st') = S (notified k (posted st)) →
     k ∈ last_items st').
Proof.
  intros Hws. simpl.
  assert (at_most_once k (notified k (posted st)) (snd (poll ws st))) as H.
  { assert (at_most_once k (notified k (posted st)) st) as H0.
    { destruct (decide (k ∈ last_items st)); [right|left]; split; (done || lia). }
    revert H0. generalize (notified k (posted st)) as n0. revert st.
    induction Hws as [|w ws Hw Hws IH]; intros st n0 H0; simpl; [done|].
    run_m. pose proof (check_updates_at_most_once w k n0 st Hw H0) as H1.
    pose proof (check_updates_ok w st) as Hok.
    destruct (check_updates w st) as [r st1]. simpl in *. subst r.
    by apply IH. }
  split; [|split].
  - destruct H as [[_ ->]|[_ ?]]; lia.
  - intros Hk. by apply seen_never_notified; [apply poll_evolves|].
  - intros Heq. destruct H as [[_ H]|[H _]]; [lia|done].
Qed.

Lemma decide_action_eligible st a d :
  strptime (date_ a) = Ok d → decide_action st a d ≠ Skip → eligible st a.
Proof.
  unfold decide_action, eligible. intros Hd H. exists d. split; [done|].
  intros c Hc. rewrite Hc in H. by destruct (date_leb c d).
Qed.

Lemma grows_refl st : grows st st.
Proof. split; [done|]. intros k Hk. by left. Qed.

Lemma grows_trans st1 st2 st3 : grows st1 st2 → grows st2 st3 → grows st1 st3.
Proof.
  intros [Hd H] [Hd' H']. split; [congruence|]. intros k Hk.
  destruct (H' k Hk) as [Hk2|(a & <- & d & Hdate & Hc)]; [by apply H|].
  right. exists a. split; [done|]. exists d. split; [done|].
  intros c Hc'. apply Hc. congruence.
Qed.

Lemma do_step_grows w x st : grows st (snd (do_step w x st)).
Proof.
  destruct x as [out|e|s raw]; simpl;
    [split; [done|]; intros k Hk; by left|apply grows_refl|].
  destruct (normalize s raw) as [[a d]|e] eqn:Hn.
  - pose proof (normalize_date _ _ _ _ Hn) as Hdate.
    pose proof (process_item_spec w s raw a d st Hn) as [(_ & Hd & _) H].
    simpl in H. split; [done|]. intros k Hk.
    destruct (decide_action st a d) eqn:Ha.
    + destruct H as (_ & Hl & _). left. by rewrite <- Hl.
    + destruct H as (_ & Hl & _). rewrite Hl in Hk.
      apply elem_of_union in Hk as [->%elem_of_singleton|?]; [|by left].
      right. exists a. split; [done|].
      apply (decide_action_eligible st a d); [done|by rewrite Ha].
    + destruct H as [_ H].
      assert (last_items (snd (process_item w s raw st)) = last_items st
              ∨ last_items (snd (process_item w s raw st))
                = {[item_key a]} ∪ last_items st) as [Hl|Hl].
      { destruct (requests_post _ _ _); destruct H as [_ ->]; auto. }
      * left. by rewrite <- Hl.
      * rewrite Hl in Hk.
        apply elem_of_union in Hk as [->%elem_of_singleton|?]; [|by left].
        right. exists a. split; [done|].
        apply (decide_action_eligible st a d); [done|by rewrite Ha].
  - rewrite (process_item_raise w s raw e st Hn). apply grows_refl.
Qed.

Lemma steps_grows w xs st : grows st (snd (for_each xs (do_step w) st)).
Proof.
  revert st. induction xs as [|x xs IH]; intros st; [apply grows_refl|].
  rewrite for_each_cons. pose proof (do_step_grows w x st) as H.
  destruct (do_step w x st) as [[[]|e] st1]; [|done].
  eapply grows_trans; [exact H|apply IH].
Qed.

Lemma check_updates_grows w st : grows st (snd (check_updates w st)).
Proof.
  rewrite check_updates_steps. unfold end_of_cycle.
  pose proof (steps_grows w (schedule w (sources st)) st) as H.
  destruct (for_each _ _ st) as [[[]|e] st1]; simpl in *; [|done].
  by destruct (is_first_run st1).
Qed.

(** X14: a key enters the ledger only as the key of an announcement whose
    date parses and, in debug mode, is on or after the cutoff. *)
Theorem ledger_holds_only_eligible_keys (ws : list World) (st : Monitor)
    (k : string) :
  k ∈ last_items (snd (poll ws st)) →
  k ∈ last_items st ∨ ∃ a, item_key a = k ∧ eligible st a.
Proof.
  assert (grows st (snd (poll ws st))) as [_ H]; [|apply H].
  revert st. induction ws as [|w ws IH]; intros st; simpl; [apply grows_refl|].
  run_m. pose proof (check_updates_grows w st) as H.
  destruct (check_updates w st) as [[[]|e] st1]; [|done].
  eapply grows_trans; [exact H|apply IH].
Qed.

(** X15: registering the sources [srcs] one after the other appends
    them, in that order, to the sources of the monitor, and changes nothing
    else. *)
Theorem registration_keeps_order (srcs : list AnnouncementSource)
    (st : Monitor) :
  for_each srcs add_source st
  = (Ok tt, set_sources (λ l, l ++ srcs)%list st).
Proof.
  revert st. induction srcs as [|s srcs IH]; intros st; simpl.
  - unfold ret, set_sources. rewrite app_nil_r. by destruct st.
  - run_m. rewrite IH. unfold set_sources. simpl. by rewrite <- app_assoc.
Qed.

Lemma process_item_clean w s raw b d st :
  normalize s raw = Ok (b, d) →
  is_first_run st = true ∨ webhook_responds w →
  ∃ st1, process_item w s raw st = (Ok tt, st1)
         ∧ is_first_run st1 = is_first_run st
         ∧ debug_time st1 = debug_time st
         ∧ last_items st1
           = (if passes_cutoff (debug_time st) d
              then {[item_key b]} ∪ last_items st else last_items st)
         ∧ posted st1
           = (posted st
              ++ if passes_cutoff (debug_time st) d
                    && negb (is_first_run st)
                    && negb (bool_decide (item_key b ∈ last_items st))
                 then [post_of w b] else [])%list.
Proof.
  intros Hn Hw.
  pose proof (process_item_spec w s raw b d st Hn) as [(_ & Hd & Hf) H].
  simpl in H. destruct (process_item w s raw st) as [r st1]. simpl in *.
  exists st1. unfold decide_action, passes_cutoff in *.
  assert (∀ L : gset string, item_key b ∈ L → {[item_key b]} ∪ L = L) as Hin
    by set_solver.
  destruct (debug_time st) as [c|] eqn:Hdt.
  - destruct (date_leb c d); simpl.
    + destruct (is_first_run st) eqn:Hfirst; simpl.
      * destruct H as (-> & -> & ->). by rewrite app_nil_r.
      * case_bool_decide; simpl.
        -- destruct H as (-> & -> & ->). by rewrite app_nil_r, Hin.
        -- destruct H as [-> H]. destruct Hw as [?|Hw]; [done|].
           specialize (Hw (length (posted st)) (message_content (now w) b)).
           destruct (requests_post _ _ _); [|done]. by destruct H as [-> ->].
    + destruct H as (-> & -> & ->). by rewrite app_nil_r.
  - simpl. case_bool_decide; simpl.
    + destruct H as (-> & -> & ->). by rewrite andb_false_r, app_nil_r, Hin.
    + destruct (is_first_run st) eqn:Hfirst; simpl.
      * destruct H as (-> & -> & ->). by rewrite app_nil_r.
      * destruct H as [-> H]. destruct Hw as [?|Hw]; [done|].
        specialize (Hw (length (posted st)) (message_content (now w) b)).
        destruct (requests_post _ _ _); [|done]. by destruct H as [-> ->].
Qed.

Lemma considered_cons dt b d l :
  strptime (date_ b) = Ok d →
  considered dt (b :: l)
  = if passes_cutoff dt d then b :: considered dt l else considered dt l.
Proof.
  intros Hd. unfold considered, passes_cutoff. destruct dt as [c|]; [|done].
  simpl. unfold is_candidate at 1. by rewrite Hd.
Qed.

Lemma steps_clean w xs : ∀ st anns,
  is_first_run st = true ∨ webhook_responds w →
  steps_announcements xs = Ok anns →
  ∃ st', for_each xs (do_step w) st = (Ok tt, st')
         ∧ is_first_run st' = is_first_run st
         ∧ debug_time st' = debug_time st
         ∧ last_items st'
           = list_to_set (map item_key (considered (debug_time st) anns))
             ∪ last_items st
         ∧ posted st'
           = (posted st
              ++ if is_first_run st then []
                 else map (post_of w)
                        (first_new (last_items st)
                           (considered (debug_time st) anns)))%list.
Proof.
  induction xs as [|[out|e|s raw] xs IH]; intros st anns Hw Ha.
  - simplify_eq/=. exists st. split; [done|]. repeat split; try done.
    + destruct (debug_time st); set_solver.
    + destruct (debug_time st); destruct (is_first_run st);
        by rewrite app_nil_r.
  - rewrite for_each_cons. simpl in *. run_m.
    destruct (IH (emit out st) anns) as (st' & ? & ? & ? & ? & ?); [done..|].
    by exists st'.
  - done.
  - rewrite for_each_cons. simpl in *.
    destruct (normalize s raw) as [[b d]|] eqn:Hn; [|done]. simpl in Ha.
    destruct (steps_announcements xs) as [l|] eqn:Hl; [|done]. simplify_eq/=.
    pose proof (normalize_date _ _ _ _ Hn) as Hdate.
    destruct (process_item_clean w s raw b d st Hn Hw)
      as (st1 & -> & Hf1 & Hd1 & Hl1 & Hp1).
    destruct (IH st1 l) as (st' & Hr & Hf' & Hd' & Hl' & Hp');
      [by rewrite Hf1|done|].
    exists st'. split; [done|]. split; [congruence|]. split; [congruence|].
    rewrite Hl', Hp', Hp1, Hl1, Hf1, Hd1, (considered_cons _ b d l Hdate).
    destruct (passes_cutoff (debug_time st) d); simpl.
    + split; [set_solver|]. destruct (is_first_run st); simpl.
      * by rewrite !app_nil_r.
      * case_bool_decide as Hseen; simpl.
        -- rewrite app_nil_r.
           by replace ({[item_key b]} ∪ last_items st) with (last_items st)
             by set_solver.
        -- by rewrite <- app_assoc.
    + split; [done|]. by rewrite app_nil_r.
Qed.

(** X16: the effect of a cycle in which every adapter returns and every
    item normalizes (and, in the steady state, the webhook answers).  The
    ledger gains the keys of all announcements the mode considers; the first
    run notifies nothing; the steady state notifies exactly the considered
    announcements whose key was not in the ledger, each key once, in the
    order they were fetched. *)
Theorem clean_cycle_effect (w : World) (st : Monitor)
    (anns : list Announcement) :
  cycle_announcements w (sources st) = Ok anns →
  is_first_run st = true ∨ webhook_responds w →
  let st' := snd (check_updates w st) in
  let seen := considered (debug_time st) anns in
  is_first_run st' = false
  ∧ last_items st' = list_to_set (map item_key seen) ∪ last_items st
  ∧ posted st'
    = (posted st
       ++ if is_first_run st then []
          else map (post_of w) (first_new (last_items st) seen))%list.
Proof.
  intros Ha Hw. simpl. rewrite check_updates_steps.
  rewrite <- cycle_announcements_steps in Ha.
  destruct (steps_clean w _ st anns Hw Ha) as (st1 & -> & Hf & Hd & Hl & Hp).
  unfold end_of_cycle. destruct (is_first_run st1) eqn:Hf1; simpl;
    rewrite <- Hf; rewrite <- Hf in Hp; repeat split; done.
Qed.

Lemma tencent_bad_item_is_skipped_witness :
  TencentCloud.parse_items ([rowA] ++ row_no_href :: [rowB])
  = ([LogParseItem (KeyError "href")], [itemA; itemB]).
Proof.
  apply (tencent_bad_item_is_skipped [rowA] [rowB] row_no_href (KeyError "href")).
  reflexivity.
Defined.

Lemma adapters_never_share_a_key_witness :
  item_key ann_weixin_B ≠ item_key annB
  ∧ item_key ann_weixin_B ≠ item_key ann_yeepay_B
  ∧ item_key annB ≠ item_key ann_yeepay_B.
Proof.
  apply (adapters_never_share_a_key clock (λ _, "n") weixin_B itemB yeepay_item
           ann_weixin_B annB ann_yeepay_B); reflexivity.
Defined.

Lemma weixin_merges_both_lists_witness :
  WeixinPay.get_announcements weixin_both
  = ([], Ok [weixin_item; weixin_pinned]).
Proof.
  apply (weixin_merges_both_lists weixin_both (weixin_json [weixin_item])
           (weixin_json [weixin_pinned]) [weixin_item] [weixin_pinned]);
    try reflexivity;
    (split; [reflexivity|]; eexists _, _, _; repeat split; reflexivity).
Defined.

Lemma weixin_error_code_contributes_nothing_witness :
  WeixinPay.extend_from [weixin_item] weixin_refused = Ok [weixin_item].
Proof.
  apply (weixin_error_code_contributes_nothing [weixin_item] weixin_refused
           [("errorcode", JNum 268)]); reflexivity.
Defined.

Lemma no_key_is_notified_twice_witness :
  let st' := snd (poll [w_AB; w_AB] st_A) in
  (notified (item_key annB) (posted st')
   ≤ S (notified (item_key annB) (posted st_A)))%nat
  ∧ (item_key annB ∈ last_items st_A →
     notified (item_key annB) (posted st')
     = notified (item_key annB) (posted st_A))
  ∧ (notified (item_key annB) (posted st')
     = S (notified (item_key annB) (posted st_A)) →
     item_key annB ∈ last_items st').
Proof.
  apply (no_key_is_notified_twice [w_AB; w_AB] st_A (item_key annB)).
  repeat constructor; intros n c; reflexivity.
Defined.

Lemma ledger_holds_only_eligible_keys_witness :
  item_key annB ∈ last_items st_A
  ∨ ∃ a, item_key a = item_key annB ∧ eligible st_A a.
Proof.
  apply (ledger_holds_only_eligible_keys [w_AB] st_A (item_key annB)).
  by_computation.
Defined.

Lemma clean_cycle_effect_witness :
  let st' := snd (check_updates w_AB st_A) in
  is_first_run st' = false
  ∧ last_items st'
    = list_to_set (map item_key [annA; annB]) ∪ last_items st_A
  ∧ posted st' = (posted st_A ++ [post_of w_AB annB])%list.
Proof.
  apply (clean_cycle_effect w_AB st_A [annA; annB]).
  - reflexivity.
  - right. intros n c. reflexivity.
Defined.
